(** * Template Colorizer: [logic_nodes/_introduction/make_socket_svgs.py]

    A shallow embedding of the script that writes one coloured socket icon
    per entry of [COLORS], and the properties its specification states.

    Text is modelled at the level the script sees it: a file holds the
    [str] that [read()] returns and that [write()] receives.  The codec and
    the newline translation of Python's text-mode files sit below this
    model; "content" and "identical" in the statements below are about
    that text.  The bytes on the disk, and what is said about them, are
    the matter of [TextIO]. *)

From Stdlib Require Import Ascii String.
From Equations Require Import Equations.
From stdpp Require Import gmap strings list.

Open Scope string_scope.

(** ** Python strings *)

Module Str.

(** [s[len(p):]] when [s.startswith(p)], and nothing otherwise. *)
Fixpoint strip_prefix (p s : string) : option string :=
  match p, s with
  | EmptyString, _ => Some s
  | String _ _, EmptyString => None
  | String a p', String b s' =>
      if Ascii.eqb a b then strip_prefix p' s' else None
  end.

(** [s.startswith(p)] *)
Definition startswith (s p : string) : bool :=
  match strip_prefix p s with Some _ => true | None => false end.

(** [p in s]: [p] starts at some position of [s]. *)
Fixpoint contains (s p : string) : bool :=
  startswith s p ||
  match s with
  | EmptyString => false
  | String _ s' => contains s' p
  end.

(** The text [new] after every character of [s]; with [new] in front this
    is what [s.replace("", new)] returns. *)
Fixpoint after_each (new s : string) : string :=
  match s with
  | EmptyString => EmptyString
  | String a s' => String a (new +:+ after_each new s')
  end.

Lemma strip_prefix_length p s r :
  strip_prefix p s = Some r →
  String.length s = String.length p + String.length r.
Proof.
  revert s; induction p as [|a p IH]; intros [|b s]; simpl; try congruence.
  - intros [= <-]; reflexivity.
  - intros [= <-]; reflexivity.
  - destruct (Ascii.eqb a b); [|discriminate]. intros H%IH. lia.
Qed.

Definition inspect {A} (a : A) : {b | a = b} := exist _ a eq_refl.

(** [s.replace(old, new)]: scan [s] from the left; where [old] starts, emit
    [new] and continue behind that occurrence, otherwise copy one
    character.  Occurrences are therefore the leftmost non-overlapping
    ones, and nothing is interpreted as a pattern. *)
Equations? replace (s old new : string) : string
  by wf (String.length s) lt :=
  replace s EmptyString new := new +:+ after_each new s;
  replace EmptyString (String c old') new := EmptyString;
  replace (String a s') (String c old') new
    with inspect (strip_prefix (String c old') (String a s')) := {
    | exist _ (Some rest) Hrest := new +:+ replace rest (String c old') new;
    | exist _ None _ := String a (replace s' (String c old') new) }.
Proof.
  - apply strip_prefix_length in Hrest. simpl in *. lia.
  - simpl. lia.
Qed.

(** Some suffix of [x] that is not empty is a prefix of [y]: an occurrence
    of [y] can start inside [x] and run over its end. *)
Fixpoint overlaps (x y : string) : bool :=
  match x with
  | EmptyString => false
  | String _ x' => startswith y x || overlaps x' y
  end.

End Str.

(** ** Files *)

(** What goes wrong at a path opened for writing: [open] itself fails, or
    the data cannot be written in full and only its first [written]
    characters reach the file. *)
Inductive write_fault :=
  | OpenFails
  | WriteFails (written : nat).

(** The part of the environment the script touches: the text of each
    file, the files that cannot be opened for reading, and the paths where
    writing goes wrong. *)
Record world := World {
  files : gmap string string;
  unreadable : gset string;
  faulty : gmap string write_fault
}.

Definition set_files (f : gmap string string → gmap string string)
    (w : world) : world :=
  {| files := f (files w); unreadable := unreadable w; faulty := faulty w |}.

(** The [OSError]s the script can meet; each carries the path. *)
Inductive OSError :=
  | FileNotFoundError (path : string)
  | PermissionError (path : string)
  | WriteError (path : string).

Inductive result (A : Type) :=
  | Ok (a : A)
  | Raise (e : OSError).
Arguments Ok {A} a.
Arguments Raise {A} e.

(** A computation runs in a world and leaves a world behind, also when it
    raises: an exception does not undo what was written before it. *)
Definition M (A : Type) : Type := world → result A * world.

Definition ret {A} (a : A) : M A := fun w => (Ok a, w).

Definition bind {A B} (m : M A) (k : A → M B) : M B :=
  fun w =>
    match m w with
    | (Ok a, w1) => k a w1
    | (Raise e, w1) => (Raise e, w1)
    end.

Notation "'let*' x ':=' m 'in' k" := (bind m (fun x => k))
  (at level 10, x pattern, m at level 100, k at level 200).

(** An open file is known by its path. *)
Abbreviation file := string.

(** [open(path, "r")]: the file has to exist, and to be readable. *)
Definition open_r (path : string) : M file :=
  fun w =>
    match files w !! path with
    | None => (Raise (FileNotFoundError path), w)
    | Some _ =>
        if decide (path ∈ unreadable w)
        then (Raise (PermissionError path), w)
        else (Ok path, w)
    end.

(** [f.read()] *)
Definition read (f : file) : M string :=
  fun w =>
    match files w !! f with
    | Some text => (Ok text, w)
    | None => (Raise (FileNotFoundError f), w)
    end.

(** [open(path, "w")]: creates the file or truncates it. *)
Definition open_w (path : string) : M file :=
  fun w =>
    match faulty w !! path with
    | Some OpenFails => (Raise (PermissionError path), w)
    | _ => (Ok path, set_files (insert path "") w)
    end.

(** [f.write(data)]: appends to what the file holds since it was opened. *)
Definition write (f : file) (data : string) : M unit :=
  fun w =>
    let held := default "" (files w !! f) in
    match faulty w !! f with
    | Some (WriteFails n) =>
        (Raise (WriteError f),
         set_files (insert f (held +:+ substring 0 n data)) w)
    | _ => (Ok tt, set_files (insert f (held +:+ data)) w)
    end.

(** Closing changes no file's text. *)
Definition close (f : file) : M unit := ret tt.

(** [with opener as f: body]: the file is closed on every way out. *)
Definition with_ {A} (opener : M file) (body : file → M A) : M A :=
  fun w =>
    match opener w with
    | (Raise e, w1) => (Raise e, w1)
    | (Ok f, w1) =>
        let '(r, w2) := body f w1 in
        let '(_, w3) := close f w2 in
        (r, w3)
    end.

(** [for x in l: body] *)
Fixpoint for_ {A} (l : list A) (body : A → M unit) : M unit :=
  match l with
  | [] => ret tt
  | x :: l' => let* _ := body x in for_ l' body
  end.

(** ** The script *)

(** The dict literal, in insertion order, which is the order [items()]
    yields. *)
Definition COLORS : list (string * string) :=
  [ ("action", "cc4c4c");
    ("animation", "cccccc");
    ("array", "cc6600");
    ("bool", "cca6d6");
    ("color", "c7c729");
    ("dynamic", "63c763");
    ("float", "a1a1a1");
    ("integer", "0f8526");
    ("object", "268cbf");
    ("string", "70b2ff");
    ("vector", "6363c7") ].

Definition items {K V} (d : list (K * V)) : list (K * V) := d.

Definition main : M unit :=
  let* template_str := with_ (open_r "sockettype_template.svg") read in
  for_ (items COLORS) (fun '(socket_type, color) =>
    with_ (open_w ("sockettype_" +:+ socket_type +:+ ".svg")) (fun f =>
      write f (Str.replace template_str "fill:#cc4c4c;"
                 ("fill:#" +:+ color +:+ ";")))).

(** ** Names used in the statements *)

Definition template_path : string := "sockettype_template.svg".

(** The marker the template carries: the fill declaration of the reference
    colour. *)
Definition marker : string := "fill:#cc4c4c;".

(** [f"fill:#{color};"] *)
Definition fill (color : string) : string := "fill:#" +:+ color +:+ ";".

(** [f"sockettype_{socket_type}.svg"] *)
Definition output_path (socket_type : string) : string :=
  "sockettype_" +:+ socket_type +:+ ".svg".

(** The text written for a colour. *)
Definition output_text (template_str color : string) : string :=
  Str.replace template_str marker (fill color).

Definition output_paths : list string := map (output_path ∘ fst) COLORS.

(** The files after the entries of [l] have been written over [m], in
    order. *)
Fixpoint write_all (template_str : string) (l : list (string * string))
    (m : gmap string string) : gmap string string :=
  match l with
  | [] => m
  | (socket_type, color) :: l' =>
      write_all template_str l'
        (<[output_path socket_type := output_text template_str color]> m)
  end.

(** [t] is [s] except that some fill declarations of the reference colour
    carry [color] instead: every other character is the same and stands at
    the same place. *)
Inductive recoloured (color : string) : string → string → Prop :=
  | recoloured_end : recoloured color "" ""
  | recoloured_same a s t :
      recoloured color s t → recoloured color (String a s) (String a t)
  | recoloured_fill s t :
      recoloured color s t →
      recoloured color (marker +:+ s) (fill color +:+ t).

(** A path names a file of the working directory: it has no separator. *)
Definition in_cwd (path : string) : bool := negb (Str.contains path "/").

(** Nothing goes wrong when [path] is opened for writing and written. *)
Definition writable (w : world) (path : string) : Prop :=
  faulty w !! path = None.

(** The colour's fill declaration and the marker cannot run into each
    other or into themselves: no occurrence of one starts inside an
    occurrence of the other and runs over its end. *)
Definition apart (x y : string) : bool :=
  match x, y with
  | String _ x', String _ y' =>
      negb (Str.overlaps x' x) && negb (Str.overlaps x' y) &&
      negb (Str.overlaps y' x) && negb (Str.overlaps y' y)
  | _, _ => false
  end.

(** The body of the loop of [main], for the template that was read. *)
Definition emit (template_str : string) : string * string → M unit :=
  fun '(socket_type, color) =>
    with_ (open_w ("sockettype_" +:+ socket_type +:+ ".svg")) (fun f =>
      write f (Str.replace template_str "fill:#cc4c4c;"
                 ("fill:#" +:+ color +:+ ";"))).

(** How a run ends, and the world it leaves. *)
Definition outcome (w : world) : result unit := (main w).1.
Definition after (w : world) : world := (main w).2.

(** A colour code of the table: six hexadecimal digits. *)
Definition is_hex (a : ascii) : bool :=
  let k := nat_of_ascii a in
  ((48 <=? k) && (k <=? 57) || (97 <=? k) && (k <=? 102) ||
   (65 <=? k) && (k <=? 70))%nat.

Definition hex_color (color : string) : bool :=
  (String.length color =? 6)%nat &&
  forallb is_hex (list_ascii_of_string color).

(** What the round trip and the absence of left-over markers rest on, for
    one colour: its fill declaration is as long as the marker, the two
    are apart, and they are the same text only for the reference
    colour. *)
Definition separated (color : string) : bool :=
  apart marker (fill color) &&
  (String.length (fill color) =? String.length marker)%nat &&
  (String.eqb color "cc4c4c" || negb (String.eqb (fill color) marker)).

(** The error a faulty path raises, and what the failed attempt leaves in
    the files. *)
Definition fault_error (fault : write_fault) (path : string) : OSError :=
  match fault with
  | OpenFails => PermissionError path
  | WriteFails _ => WriteError path
  end.

Definition fault_files (fault : write_fault) (path data : string)
    (m : gmap string string) : gmap string string :=
  match fault with
  | OpenFails => m
  | WriteFails k => <[path := substring 0 k data]> m
  end.

(** ** Sample worlds *)

Definition world_of (template_str : string) : world :=
  {| files := {[ template_path := template_str ]};
     unreadable := ∅;
     faulty := ∅ |}.

(** The template of the specification's scenario. *)
Definition sample_world : world :=
  world_of "<svg><rect fill:#cc4c4c; /></svg>".

(** A template without the marker. *)
Definition plain_world : world := world_of "<svg><rect /></svg>".

(** A template that already carries the colour of "animation". *)
Definition grey_world : world :=
  world_of "<svg><rect fill:#cccccc; /></svg>".

(** No template at all, and a template that may not be read. *)
Definition empty_world : world :=
  {| files := ∅; unreadable := ∅; faulty := ∅ |}.

Definition locked_world : world :=
  {| files := {[ template_path := "<svg><rect fill:#cc4c4c; /></svg>" ]};
     unreadable := {[ template_path ]};
     faulty := ∅ |}.

(** The fourth output cannot be written in full: five characters reach
    the file.  An older icon for "array" lies in the directory. *)
Definition full_world : world :=
  {| files := {[ template_path := "<svg><rect fill:#cc4c4c; /></svg>";
                 output_path "array" := "old" ]};
     unreadable := ∅;
     faulty := {[ output_path "bool" := WriteFails 5 ]} |}.

(** A directory in use: an older icon lies at an output path, next to a
    file that is no output. *)
Definition used_world : world :=
  {| files := {[ template_path := "<svg><rect fill:#cc4c4c; /></svg>";
                 output_path "float" := "older";
                 "notes.txt" := "keep" ]};
     unreadable := ∅;
     faulty := ∅ |}.

(** [s.count(sub)]: the occurrences of [sub] in [s] that a scan from the
    left meets, none overlapping the one before. *)
Equations? count (s sub : string) : nat by wf (String.length s) lt :=
  count s EmptyString := S (String.length s);
  count EmptyString (String c sub') := 0;
  count (String a s') (String c sub')
    with Str.inspect (Str.strip_prefix (String c sub') (String a s')) := {
    | exist _ (Some rest) Hrest := S (count rest (String c sub'));
    | exist _ None _ := count s' (String c sub') }.
Proof.
  - apply Str.strip_prefix_length in Hrest. simpl in *. lia.
  - simpl. lia.
Qed.

(** ** Text-mode files: the bytes below the text

    [open(path, "r")] and [open(path, "w")] open files in text mode.  What
    lies on the disk are bytes; reading decodes them and turns every line
    ending into a line feed, writing turns every line feed into the line
    separator of the platform.  Here the files of a [world] hold those
    bytes, and the run over them is [TextIO.main].  A text is kept as the
    bytes its characters are encoded to; for UTF-8 and for one-byte
    codecs, replacing an ASCII text in the characters and in the bytes is
    the same.  [main] above is this run as seen through the text layer
    ([TextIO.text_view] below). *)

Module TextIO.

Definition CR : ascii := "013"%char.
Definition LF : ascii := "010"%char.

(** Reading with [newline=None]: ["\r\n"] and a lone ["\r"] become
    ["\n"]. *)
Fixpoint universal_newlines (s : string) : string :=
  match s with
  | EmptyString => EmptyString
  | String a s' =>
      if Ascii.eqb a CR then
        String LF
          match s' with
          | String b s'' =>
              if Ascii.eqb b LF then universal_newlines s''
              else universal_newlines s'
          | EmptyString => EmptyString
          end
      else String a (universal_newlines s')
  end.

(** Writing with [newline=None]: every ["\n"] becomes [os.linesep]. *)
Fixpoint translate_newlines (linesep s : string) : string :=
  match s with
  | EmptyString => EmptyString
  | String a s' =>
      if Ascii.eqb a LF then linesep +:+ translate_newlines linesep s'
      else String a (translate_newlines linesep s')
  end.

(** What the platform decides: [os.linesep], and which byte sequences the
    default codec decodes. *)
Record platform := Platform {
  linesep : string;
  decodes : string → bool
}.

(** Well-formed UTF-8: [need] continuation bytes are still due, the next
    one between [lo] and [hi]. *)
Fixpoint utf8_scan (need lo hi : nat) (s : string) : bool :=
  match s with
  | EmptyString => (need =? 0)%nat
  | String a s' =>
      let b := nat_of_ascii a in
      match need with
      | 0 =>
          if (b <? 128)%nat then utf8_scan 0 128 191 s'
          else if ((194 <=? b) && (b <=? 223))%nat then utf8_scan 1 128 191 s'
          else if (b =? 224)%nat then utf8_scan 2 160 191 s'
          else if ((225 <=? b) && (b <=? 236) ||
                   (238 <=? b) && (b <=? 239))%nat
               then utf8_scan 2 128 191 s'
          else if (b =? 237)%nat then utf8_scan 2 128 159 s'
          else if (b =? 240)%nat then utf8_scan 3 144 191 s'
          else if ((241 <=? b) && (b <=? 243))%nat then utf8_scan 3 128 191 s'
          else if (b =? 244)%nat then utf8_scan 3 128 143 s'
          else false
      | S k => ((lo <=? b) && (b <=? hi))%nat && utf8_scan k 128 191 s'
      end
  end.

Definition utf8 (s : string) : bool := utf8_scan 0 128 191 s.

(** A POSIX system with a UTF-8 locale, and Windows with a one-byte code
    page that decodes every byte. *)
Definition posix : platform := {| linesep := String LF ""; decodes := utf8 |}.

Definition windows : platform :=
  {| linesep := String CR (String LF ""); decodes := λ _, true |}.

(** Besides the [OSError]s, reading can raise [UnicodeDecodeError]. *)
Inductive exception :=
  | OS (e : OSError)
  | UnicodeDecodeError (path : string).

Inductive answer (A : Type) :=
  | Returns (a : A)
  | Raises (e : exception).
Arguments Returns {A} a.
Arguments Raises {A} e.

Definition T (A : Type) : Type := world → answer A * world.

Definition unit_T {A} (a : A) : T A := fun w => (Returns a, w).

Definition bind_T {A B} (m : T A) (k : A → T B) : T B :=
  fun w =>
    match m w with
    | (Returns a, w1) => k a w1
    | (Raises e, w1) => (Raises e, w1)
    end.

Notation "'let+' x ':=' m 'in' k" := (bind_T m (fun x => k))
  (at level 10, x pattern, m at level 100, k at level 200).

(** What the operating system does, under the text layer. *)
Definition lift {A} (m : M A) : T A :=
  fun w =>
    match m w with
    | (Ok a, w1) => (Returns a, w1)
    | (Raise e, w1) => (Raises (OS e), w1)
    end.

(** [open(path, "r")], [open(path, "w")] *)
Definition open_text_r (path : string) : T file := lift (open_r path).
Definition open_text_w (path : string) : T file := lift (open_w path).

(** [f.read()]: the bytes are decoded, then the line endings
    translated. *)
Definition read_text (pf : platform) (f : file) : T string :=
  let+ bytes := lift (read f) in
  if decodes pf bytes then unit_T (universal_newlines bytes)
  else fun w => (Raises (UnicodeDecodeError f), w).

(** [f.write(data)]: the line feeds are translated, then the bytes
    written. *)
Definition write_text (pf : platform) (f : file) (data : string) : T unit :=
  lift (write f (translate_newlines (linesep pf) data)).

Definition close_text (f : file) : T unit := lift (close f).

Definition with_T {A} (opener : T file) (body : file → T A) : T A :=
  fun w =>
    match opener w with
    | (Raises e, w1) => (Raises e, w1)
    | (Returns f, w1) =>
        let '(r, w2) := body f w1 in
        let '(_, w3) := close_text f w2 in
        (r, w3)
    end.

Fixpoint for_T {A} (l : list A) (body : A → T unit) : T unit :=
  match l with
  | [] => unit_T tt
  | x :: l' => let+ _ := body x in for_T l' body
  end.

(** The script, over the bytes. *)
Definition main (pf : platform) : T unit :=
  let+ template_str :=
    with_T (open_text_r "sockettype_template.svg") (read_text pf) in
  for_T (items COLORS) (fun '(socket_type, color) =>
    with_T (open_text_w ("sockettype_" +:+ socket_type +:+ ".svg")) (fun f =>
      write_text pf f (Str.replace template_str "fill:#cc4c4c;"
                         ("fill:#" +:+ color +:+ ";")))).

(** How the run over the bytes ends, and the disk it leaves. *)
Definition ends (pf : platform) (d : world) : answer unit := (main pf d).1.
Definition leaves (pf : platform) (d : world) : world := (main pf d).2.

(** The bytes written for a colour, from the bytes of the template. *)
Definition output_bytes (pf : platform) (template_bytes color : string)
    : string :=
  translate_newlines (linesep pf)
    (Str.replace (universal_newlines template_bytes) marker (fill color)).

(** A template with Windows line endings, and one that is no UTF-8. *)
Definition crlf_template : string :=
  "<svg>" +:+ String CR (String LF "<rect fill:#cc4c4c; /></svg>").

Definition crlf_disk : world := world_of crlf_template.

Definition latin_disk : world :=
  world_of ("<svg>" +:+ String "255"%char "</svg>").

End TextIO.

(** The loop body of both runs: the text or the bytes [data color] are
    written to the entry's file; and the files after a list of entries. *)
Definition emit_data (data : string → string) : string * string → M unit :=
  fun '(socket_type, color) =>
    with_ (open_w (output_path socket_type)) (fun f => write f (data color)).

Fixpoint write_data (data : string → string) (l : list (string * string))
    (m : gmap string string) : gmap string string :=
  match l with
  | [] => m
  | (socket_type, color) :: l' =>
      write_data data l' (<[output_path socket_type := data color]> m)
  end.

(** ** The screenshot script: [logic_nodes/make_screenshots.py]

    [take_screenshot] works on Blender's node tree, its window and the
    image files.  What the host decides is taken from a [host]: the height
    of the area, the place of a drawn node in the region, and how the
    platform splits a path.  Pictures are kept as what was done to
    them. *)

Module Screenshots.

Definition MARGIN : Z := 20.

Inductive picture :=
  | AreaShot (shown : list string)
  | Cropped (box : Z * Z * Z * Z) (img : picture)
  | Scaled (maxsize : Z * Z) (img : picture).

(** The calls into Pillow on the way from the screenshot to the saved
    picture: [Image.open], [crop], [thumbnail] and [save]. *)
Inductive pil_call := ImageOpen | ImageCrop | ImageThumbnail | ImageSave.

Global Instance pil_call_eq_dec : EqDecision pil_call.
Proof. solve_decision. Defined.

Record host := Host {
  (** [bpy.context.area.height] *)
  area_height : Z;
  (** What [view2d.view_to_region] returns for the two corners of the node
      of a type, once it is drawn and moved into view: [(left, top)] and
      [(right, bottom)], in pixels of the region. *)
  node_corners : string → (Z * Z) * (Z * Z);
  (** [os.path.splitext] *)
  os_path_splitext : string → string * string;
  (** The first call into Pillow that raises, if one does.  From Pillow 10
      on [Image.ANTIALIAS] is gone, and the [thumbnail] line raises
      [AttributeError]. *)
  pillow_raises : option pil_call;
  (** What a [save] that raises leaves at its path, from what lay
      there. *)
  failed_save : option picture → option picture
}.

Definition raises (h : host) (call : pil_call) : bool :=
  bool_decide (pillow_raises h = Some call).

(** What [take_screenshot] can raise past Blender's own operators, which
    are taken to work. *)
Inductive exception :=
  | PillowError (call : pil_call)
  | NoSuchFile (path : string).

(** The state [take_screenshot] works on: the node types in
    [editor.node_tree.nodes], the module's list [WARNINGS], the image
    files, and the lines printed. *)
Record blender := Blender {
  nodes : list string;
  WARNINGS : list string;
  images : gmap string picture;
  stdout : list string
}.

Definition set_nodes (f : list string → list string) (b : blender) :=
  {| nodes := f (nodes b); WARNINGS := WARNINGS b; images := images b;
     stdout := stdout b |}.

Definition set_WARNINGS (f : list string → list string) (b : blender) :=
  {| nodes := nodes b; WARNINGS := f (WARNINGS b); images := images b;
     stdout := stdout b |}.

Definition set_images (f : gmap string picture → gmap string picture)
    (b : blender) :=
  {| nodes := nodes b; WARNINGS := WARNINGS b; images := f (images b);
     stdout := stdout b |}.

Definition print (line : string) (b : blender) :=
  {| nodes := nodes b; WARNINGS := WARNINGS b; images := images b;
     stdout := (stdout b ++ [line])%list |}.

(** [os.remove(path)]: raises when there is no such file. *)
Definition os_remove (path : string) (b : blender)
    : option exception * blender :=
  match images b !! path with
  | Some _ => (None, set_images (delete path) b)
  | None => (Some (NoSuchFile path), b)
  end.

(** [take_screenshot(file_path, editor, nodetype)]; the new node is known
    by its place in the tree.  Redrawing, deselecting, moving and
    labelling the node change nothing of [blender]: they decide what
    [node_corners] returns.  The result is the exception raised, if one
    is, and the state left. *)
Definition take_screenshot (h : host) (file_path nodetype : string)
    (b : blender) : option exception * blender :=
  let b := print ("Creating screenshot of " +:+ nodetype) b in
  let node := length (nodes b) in
  let b := set_nodes (λ l, (l ++ [nodetype])%list) b in
  let b := set_images (insert file_path (AreaShot (nodes b))) b in
  let corners := node_corners h nodetype in
  let left := corners.1.1 in
  let top := corners.1.2 in
  let right := corners.2.1 in
  let bottom := corners.2.2 in
  let bottom := (area_height h - bottom)%Z in
  let top := (area_height h - top)%Z in
  let left := (left - MARGIN)%Z in
  let right := (right + MARGIN)%Z in
  let top := (top - MARGIN)%Z in
  let bottom := (bottom + MARGIN)%Z in
  if (bottom - top >? area_height h)%Z then
    let b := set_WARNINGS (λ l, (l ++ [nodetype])%list) b in
    (None, set_nodes (delete node) b)
  else
    let b := set_nodes (delete node) b in
    if raises h ImageOpen then (Some (PillowError ImageOpen), b) else
    match images b !! file_path with
    | None => (Some (NoSuchFile file_path), b)
    | Some img =>
        if raises h ImageCrop then (Some (PillowError ImageCrop), b) else
        let cropped := Cropped (left, top, right, bottom) img in
        let maxsize := (400, 1000)%Z in
        if raises h ImageThumbnail
        then (Some (PillowError ImageThumbnail), b) else
        let cropped := Scaled maxsize cropped in
        let jpg := (os_path_splitext h file_path).1 +:+ ".jpg" in
        if raises h ImageSave
        then (Some (PillowError ImageSave),
              set_images (partial_alter (failed_save h) jpg) b) else
        let b := set_images (insert jpg cropped) b in
        os_remove file_path b
    end.

(** The height and width of the drawn node in pixels, the box the picture
    is cropped to, and the path the cropped picture is saved at. *)
Definition node_height (h : host) (nodetype : string) : Z :=
  ((node_corners h nodetype).1.2 - (node_corners h nodetype).2.2)%Z.

Definition node_width (h : host) (nodetype : string) : Z :=
  ((node_corners h nodetype).2.1 - (node_corners h nodetype).1.1)%Z.

Definition crop_box (h : host) (nodetype : string) : Z * Z * Z * Z :=
  let corners := node_corners h nodetype in
  (corners.1.1 - MARGIN, area_height h - corners.1.2 - MARGIN,
   corners.2.1 + MARGIN, area_height h - corners.2.2 + MARGIN)%Z.

Definition jpg_path (h : host) (file_path : string) : string :=
  (os_path_splitext h file_path).1 +:+ ".jpg".

(** [posixpath.splitext], for the sample host. *)
Fixpoint rfind (s : string) (c : ascii) : Z :=
  match s with
  | EmptyString => (-1)%Z
  | String a s' =>
      let r := rfind s' c in
      if (0 <=? r)%Z then (r + 1)%Z
      else if Ascii.eqb a c then 0%Z else (-1)%Z
  end.

Definition posix_splitext (p : string) : string * string :=
  let sepIndex := rfind p "/" in
  let dotIndex := rfind p "." in
  if (dotIndex >? sepIndex)%Z &&
     existsb (λ i, negb (bool_decide (get i p = Some "."%char)))
       (seq (Z.to_nat (sepIndex + 1))
            (Z.to_nat dotIndex - Z.to_nat (sepIndex + 1)))
  then (substring 0 (Z.to_nat dotIndex) p,
        substring (Z.to_nat dotIndex)
          (String.length p - Z.to_nat dotIndex) p)
  else (p, "").

(** A node 140 pixels wide and 200 high in an area 1000 pixels high; a
    node type drawn taller than the area.  Pillow works. *)
Definition sample_host : host :=
  {| area_height := 1000;
     node_corners := λ nodetype,
       if bool_decide (nodetype = "LNTallNode")
       then ((300, 990), (440, 10))%Z
       else ((300, 700), (440, 500))%Z;
     os_path_splitext := posix_splitext;
     pillow_raises := None;
     failed_save := λ _, None |}.

(** The same with a Pillow that has no [Image.ANTIALIAS]. *)
Definition pillow10_host : host :=
  {| area_height := area_height sample_host;
     node_corners := node_corners sample_host;
     os_path_splitext := posix_splitext;
     pillow_raises := Some ImageThumbnail;
     failed_save := λ _, None |}.

Definition sample_blender : blender :=
  {| nodes := []; WARNINGS := []; images := ∅; stdout := [] |}.

End Screenshots.

(** * Facts about strings *)

Module StrFacts.
Import Str.

(** stdpp keeps [+:+] from unfolding under [simpl]; its two equations. *)
Lemma app_nil_l s : "" +:+ s = s.
Proof. reflexivity. Qed.

Lemma app_cons a s t : String a s +:+ t = String a (s +:+ t).
Proof. reflexivity. Qed.

Lemma app_nil_r s : s +:+ "" = s.
Proof. induction s as [|a s IH]; [done|]. by rewrite app_cons, IH. Qed.

Lemma app_assoc s t u : (s +:+ t) +:+ u = s +:+ (t +:+ u).
Proof. induction s as [|a s IH]; [done|]. by rewrite !app_cons, IH. Qed.

Lemma length_app s t :
  String.length (s +:+ t) = String.length s + String.length t.
Proof. induction s as [|a s IH]; [done|]. rewrite app_cons; simpl. lia. Qed.

Lemma strip_prefix_app p s : strip_prefix p (p +:+ s) = Some s.
Proof.
  induction p as [|a p IH]; [by destruct s|].
  rewrite app_cons; simpl. by rewrite Ascii.eqb_refl.
Qed.

Lemma strip_prefix_Some p s r : strip_prefix p s = Some r → s = p +:+ r.
Proof.
  revert s; induction p as [|a p IH]; intros [|b s]; simpl;
    rewrite ?app_nil_l; try congruence.
  destruct (Ascii.eqb_spec a b) as [->|]; [|discriminate].
  intros H%IH. by rewrite H, app_cons.
Qed.

Lemma startswith_nil s : startswith s "" = true.
Proof. by destruct s. Qed.

Lemma startswith_cons a s b p :
  startswith (String a s) (String b p) = true ↔ b = a ∧ startswith s p = true.
Proof.
  unfold startswith; simpl. destruct (Ascii.eqb_spec b a) as [->|Hne].
  - tauto.
  - split; [discriminate|]. intros [? _]; contradiction.
Qed.

Lemma startswith_app s p : startswith (p +:+ s) p = true.
Proof. unfold startswith. by rewrite strip_prefix_app. Qed.

Lemma startswith_true s p : startswith s p = true → ∃ r, s = p +:+ r.
Proof.
  unfold startswith. destruct (strip_prefix p s) as [r|] eqn:H; [|discriminate].
  intros _. exists r. by apply strip_prefix_Some.
Qed.

Lemma startswith_false s p : startswith s p = false ↔ strip_prefix p s = None.
Proof. unfold startswith. by destruct (strip_prefix p s). Qed.

(** A prefix no longer than [y] is decided inside [y]. *)
Lemma startswith_short y x q :
  (String.length q ≤ String.length y)%nat →
  startswith (y +:+ x) q = startswith y q.
Proof.
  revert y; induction q as [|b q IH]; intros [|a y] Hlen; simpl in *;
    try lia.
  - by rewrite !startswith_nil.
  - by rewrite !startswith_nil.
  - rewrite app_cons. apply eq_true_iff_eq. rewrite !startswith_cons.
    rewrite IH by lia. done.
Qed.

(** A prefix that reaches over [y] starts with [y]. *)
Lemma startswith_long y x q :
  (String.length y ≤ String.length q)%nat →
  startswith (y +:+ x) q = true → startswith q y = true.
Proof.
  revert y; induction q as [|b q IH]; intros [|a y] Hlen; simpl in *;
    try lia; try done.
  rewrite app_cons, !startswith_cons. intros [-> H]. split; [done|].
  apply IH; [lia|done].
Qed.

Lemma startswith_same_length s p :
  String.length s = String.length p → startswith s p = true → s = p.
Proof.
  intros Hlen [r ->]%startswith_true. rewrite length_app in Hlen.
  destruct r; simpl in *; [by rewrite app_nil_r|lia].
Qed.

Lemma contains_cons a s p :
  contains (String a s) p = startswith (String a s) p || contains s p.
Proof. reflexivity. Qed.

Lemma contains_tail a s p : contains (String a s) p = false → contains s p = false.
Proof. rewrite contains_cons. by intros [_ ?]%orb_false_iff. Qed.

Lemma contains_app_r x s p : contains (x +:+ s) p = false → contains s p = false.
Proof.
  induction x as [|a x IH]; simpl; [done|].
  intros [_ ?]%orb_false_iff. by apply IH.
Qed.

Lemma contains_head s p : contains s p = false → startswith s p = false.
Proof. destruct s; simpl; by intros [? _]%orb_false_iff. Qed.

(** ** The scan of [replace] *)

Section scan.
Context (c : ascii) (o : string).
Local Abbreviation old := (String c o).

Lemma replace_nil new : replace "" old new = "".
Proof. by simp replace. Qed.

Lemma replace_hit s new r :
  strip_prefix old s = Some r →
  replace s old new = new +:+ replace r old new.
Proof.
  intros H. destruct s as [|a s]; [discriminate|]. simp replace.
  destruct (inspect (strip_prefix old (String a s))) as [[r'|] Heq];
    simpl; congruence.
Qed.

Lemma replace_miss a s new :
  strip_prefix old (String a s) = None →
  replace (String a s) old new = String a (replace s old new).
Proof.
  intros H. simp replace.
  destruct (inspect (strip_prefix old (String a s))) as [[r'|] Heq];
    simpl; congruence.
Qed.

Lemma replace_app s new :
  replace (old +:+ s) old new = new +:+ replace s old new.
Proof. apply replace_hit, strip_prefix_app. Qed.

(** Induction along the scan: a text is empty, starts with an occurrence
    of [old], or starts with a character at which [old] does not start. *)
Lemma scan_ind (P : string → Prop) :
  P "" →
  (∀ r, P r → P (old +:+ r)) →
  (∀ a s, strip_prefix old (String a s) = None → P s → P (String a s)) →
  ∀ s, P s.
Proof.
  intros Hnil Hhit Hmiss s.
  remember (String.length s) as n eqn:Hn. revert s Hn.
  induction n as [n IH] using lt_wf_ind. intros [|a s] ->; [done|].
  destruct (strip_prefix old (String a s)) as [r|] eqn:Hs.
  - rewrite (strip_prefix_Some _ _ _ Hs). apply Hhit.
    apply strip_prefix_length in Hs. eapply IH; [|done]. simpl in *. lia.
  - apply Hmiss; [done|]. eapply IH; [|done]. simpl. lia.
Qed.

(** Equal lengths of [old] and [new] keep the length of the text. *)
Lemma replace_length new s :
  String.length new = String.length old →
  String.length (replace s old new) = String.length s.
Proof.
  intros Hlen. induction s as [|r IH|a s Hs IH] using scan_ind.
  - by rewrite replace_nil.
  - rewrite replace_app, !length_app. lia.
  - rewrite replace_miss by done. simpl. lia.
Qed.

(** Replacing [old] by itself changes nothing. *)
Lemma replace_same s : replace s old old = s.
Proof.
  induction s as [|r IH|a s Hs IH] using scan_ind.
  - by rewrite replace_nil.
  - rewrite replace_app. by rewrite IH.
  - rewrite replace_miss by done. by rewrite IH.
Qed.

(** A text without [old] is returned as it is. *)
Lemma replace_absent new s : contains s old = false → replace s old new = s.
Proof.
  induction s as [|r IH|a s Hs IH] using scan_ind; intros Hc.
  - by rewrite replace_nil.
  - apply contains_head in Hc. by rewrite startswith_app in Hc.
  - rewrite replace_miss by done. rewrite IH; [done|].
    by apply contains_tail in Hc.
Qed.

(** What was matched against the output, away from the places where
    [new] was put, was matched against the text itself. *)
Lemma startswith_replace new q s :
  overlaps q new = false →
  (String.length q ≤ String.length new)%nat →
  startswith (replace s old new) q = true → startswith s q = true.
Proof.
  revert q. induction s as [|r IH|a s Hs IH] using scan_ind;
    intros q Hov Hlen.
  - by rewrite replace_nil.
  - destruct q as [|b q]; [by rewrite !startswith_nil|].
    rewrite replace_app, startswith_short by done.
    simpl in Hov. apply orb_false_iff in Hov as [Hov _]. congruence.
  - destruct q as [|b q]; [by rewrite !startswith_nil|].
    rewrite replace_miss by done. rewrite !startswith_cons.
    intros [-> H]. split; [done|].
    simpl in Hov, Hlen. apply orb_false_iff in Hov as [_ Hov].
    apply IH; [done|lia|done].
Qed.

(** At a character where [old] does not start, a text [x] that does not
    overlap with [new] starts in the output only if it starts in the
    text. *)
Lemma startswith_replace_miss new b x a s :
  strip_prefix old (String a s) = None →
  overlaps x new = false →
  (String.length x ≤ String.length new)%nat →
  startswith (replace (String a s) old new) (String b x) = true →
  startswith (String a s) (String b x) = true.
Proof.
  intros Hs Hov Hlen. rewrite replace_miss by done.
  rewrite !startswith_cons. intros [-> H]. split; [done|].
  by apply startswith_replace in H.
Qed.

End scan.

(** ** Replacing there and back *)

Section there_and_back.
Context (c : ascii) (o : string) (d : ascii) (n : string).
Local Abbreviation old := (String c o).
Local Abbreviation new := (String d n).

(** Where the text has no [new] of its own and [new] cannot overlap with
    itself, the occurrences of [new] in the output are the ones that
    were put there, and replacing them by [old] gives the text back. *)
Lemma replace_back s :
  overlaps n new = false →
  contains s new = false →
  replace (replace s old new) new old = s.
Proof.
  intros Hov. induction s as [|r IH|a s Hs IH] using (scan_ind c o);
    intros Hc.
  - by rewrite !replace_nil.
  - rewrite !replace_app. rewrite IH; [done|].
    by apply contains_app_r in Hc.
  - assert (strip_prefix new (replace (String a s) old new) = None) as Hn.
    { apply startswith_false.
      destruct (startswith (replace (String a s) old new) new) eqn:E;
        [|done].
      apply startswith_replace_miss in E; [|done..|simpl; lia].
      apply contains_head in Hc. congruence. }
    rewrite replace_miss in Hn |- * by done.
    rewrite replace_miss by done. rewrite IH; [done|].
    by apply contains_tail in Hc.
Qed.

(** Behind a piece [y] shorter than [old] that cannot run into [old], an
    occurrence of [old] lies in what follows. *)
Lemma contains_behind y x :
  overlaps y old = false →
  (String.length y < String.length old)%nat →
  contains x old = false →
  contains (y +:+ x) old = false.
Proof.
  intros Hov Hlen Hx. induction y as [|a y IH]; [done|].
  simpl in Hov. apply orb_false_iff in Hov as [Hy Hov].
  rewrite app_cons, contains_cons, <- app_cons. apply orb_false_iff.
  split.
  - destruct (startswith (String a y +:+ x) old) eqn:E; [|done].
    apply startswith_long in E; [congruence|lia].
  - apply IH; [done|]. simpl in Hlen |- *. lia.
Qed.

(** Where [old] and [new] differ, have one length and cannot overlap,
    the output holds no [old]: every occurrence was replaced and none
    was made. *)
Lemma replace_removes s :
  old ≠ new →
  String.length new = String.length old →
  overlaps o new = false →
  overlaps n old = false →
  contains (replace s old new) old = false.
Proof.
  intros Hne Hlen Hon Hno.
  induction s as [|r IH|a s Hs IH] using (scan_ind c o).
  - by rewrite replace_nil.
  - rewrite replace_app, app_cons, contains_cons, <- app_cons.
    apply orb_false_iff. split.
    + rewrite startswith_short by lia.
      destruct (startswith new old) eqn:E; [|done].
      apply startswith_same_length in E; [congruence|done].
    + apply contains_behind; [done| |done]. simpl in Hlen |- *. lia.
  - destruct (startswith (replace (String a s) old new) old) eqn:E.
    + apply startswith_replace_miss in E; [|done..|simpl in *; lia].
      apply startswith_false in Hs. congruence.
    + rewrite replace_miss in E |- * by done.
      rewrite contains_cons, E, IH. done.
Qed.

End there_and_back.

End StrFacts.

(** * Facts about the file operations *)

Section operations.
Implicit Types (w : world) (path : string) (m : gmap string string).

Lemma set_files_set_files f g w :
  set_files g (set_files f w) = set_files (g ∘ f) w.
Proof. reflexivity. Qed.

Lemma files_set_files f w : files (set_files f w) = f (files w).
Proof. reflexivity. Qed.

Lemma set_files_ext f g w :
  f (files w) = g (files w) → set_files f w = set_files g w.
Proof. unfold set_files. by intros ->. Qed.

(** Reading a file whole. *)
Lemma read_whole path w :
  with_ (open_r path) read w =
    match files w !! path with
    | None => (Raise (FileNotFoundError path), w)
    | Some text =>
        if decide (path ∈ unreadable w)
        then (Raise (PermissionError path), w)
        else (Ok text, w)
    end.
Proof.
  unfold with_, open_r, read.
  destruct (files w !! path) as [text|] eqn:E; [|done].
  case_decide; [done|]. by rewrite E.
Qed.

(** Writing a file whole: the three ways it can go. *)
Lemma write_whole path data w :
  with_ (open_w path) (fun f => write f data) w =
    match faulty w !! path with
    | None => (Ok tt, set_files (insert path data) w)
    | Some OpenFails => (Raise (PermissionError path), w)
    | Some (WriteFails k) =>
        (Raise (WriteError path),
         set_files (insert path (substring 0 k data)) w)
    end.
Proof.
  unfold with_, open_w, write.
  destruct (faulty w !! path) as [[|k]|] eqn:E; simpl; rewrite ?E;
    simpl; try done.
  all: rewrite lookup_insert_eq; simpl; rewrite StrFacts.app_nil_l.
  all: f_equal; rewrite set_files_set_files.
  all: apply set_files_ext; simpl; apply insert_insert_eq.
Qed.

(** One round of a loop. *)
Lemma for_cons {A} (x : A) (l : list A) (body : A → M unit) w :
  for_ (x :: l) body w =
    match body x w with
    | (Ok _, w1) => for_ l body w1
    | (Raise e, w1) => (Raise e, w1)
    end.
Proof. reflexivity. Qed.

End operations.

(** * Facts about the table *)

Lemma COLORS_keys_unique : NoDup (map fst COLORS).
Proof. compute_done. Qed.

Lemma output_paths_unique : NoDup output_paths.
Proof. compute_done. Qed.

Lemma template_not_output : template_path ∉ output_paths.
Proof. compute_done. Qed.

Lemma COLORS_hex : Forall (λ e, hex_color e.2 = true) COLORS.
Proof. repeat constructor. Qed.

Lemma COLORS_separated : Forall (λ e, separated e.2 = true) COLORS.
Proof. repeat constructor. Qed.

Lemma output_paths_in_cwd : Forall (λ p, in_cwd p = true) output_paths.
Proof. repeat constructor. Qed.

Lemma output_path_elem name color :
  (name, color) ∈ COLORS → output_path name ∈ output_paths.
Proof.
  intros H. unfold output_paths. apply list_elem_of_fmap.
  by exists (name, color).
Qed.

(** * Facts about the loop *)

Section loop.
Context (t : string).
Implicit Types (w : world) (m : gmap string string)
  (l : list (string * string)).

Lemma write_all_other l m p :
  p ∉ map (output_path ∘ fst) l → write_all t l m !! p = m !! p.
Proof.
  revert m; induction l as [|[name color] l IH]; intros m Hp; [done|].
  simpl in *. apply not_elem_of_cons in Hp as [Hne Hp].
  rewrite IH by done. by rewrite lookup_insert_ne.
Qed.

Lemma write_all_lookup l m name color :
  NoDup (map (output_path ∘ fst) l) →
  (name, color) ∈ l →
  write_all t l m !! output_path name = Some (output_text t color).
Proof.
  revert m; induction l as [|[name' color'] l IH]; intros m Hnd Hin.
  - by apply elem_of_nil in Hin.
  - simpl in *. apply NoDup_cons in Hnd as [Hfresh Hnd].
    apply elem_of_cons in Hin as [[= -> ->]|Hin].
    + rewrite write_all_other by done. apply lookup_insert_eq.
    + by apply IH.
Qed.

Lemma write_all_dom l m :
  dom (write_all t l m) =
    dom m ∪ list_to_set (map (output_path ∘ fst) l).
Proof.
  revert m; induction l as [|[name color] l IH]; intros m; simpl.
  - by rewrite (right_id_L ∅ (∪)).
  - rewrite IH, dom_insert_L.
    by rewrite (comm_L (∪) {[output_path name]}), <- (assoc_L (∪)).
Qed.

Lemma write_all_again l m :
  NoDup (map (output_path ∘ fst) l) →
  write_all t l (write_all t l m) = write_all t l m.
Proof.
  intros Hnd. apply map_eq. intros p.
  destruct (decide (p ∈ map (output_path ∘ fst) l)) as [Hp|Hp].
  - apply list_elem_of_fmap in Hp as ([name color] & -> & Hin). simpl.
    by rewrite !(write_all_lookup _ _ name color).
  - by rewrite write_all_other.
Qed.

Lemma emit_run name color w :
  emit t (name, color) w =
    match faulty w !! output_path name with
    | None =>
        (Ok tt,
         set_files (insert (output_path name) (output_text t color)) w)
    | Some fault =>
        (Raise (fault_error fault (output_path name)),
         set_files
           (fault_files fault (output_path name) (output_text t color)) w)
    end.
Proof.
  unfold emit. change ("sockettype_" +:+ name +:+ ".svg")
    with (output_path name). rewrite write_whole.
  destruct (faulty w !! output_path name) as [[|k]|]; try done.
  by destruct w.
Qed.

(** No faulty path: every entry is written, in order. *)
Lemma for_emit_ok l w :
  Forall (λ e, writable w (output_path e.1)) l →
  for_ l (emit t) w = (Ok tt, set_files (write_all t l) w).
Proof.
  revert w; induction l as [|[name color] l IH]; intros w Hl.
  - by destruct w.
  - apply Forall_cons in Hl as [Hhd Hl]. unfold writable in Hhd.
    simpl in Hhd. rewrite for_cons, emit_run, Hhd. by rewrite IH.
Qed.

(** A faulty path after writable ones: the entries before it are
    written, the run stops at it, and nothing behind it is touched. *)
Lemma for_emit_raise pre name color post fault w :
  Forall (λ e, writable w (output_path e.1)) pre →
  faulty w !! output_path name = Some fault →
  for_ (pre ++ (name, color) :: post) (emit t) w =
    (Raise (fault_error fault (output_path name)),
     set_files
       (fault_files fault (output_path name) (output_text t color) ∘
        write_all t pre) w).
Proof.
  revert w; induction pre as [|[name' color'] pre IH]; intros w Hpre Hf.
  - rewrite app_nil_l, for_cons, emit_run, Hf. done.
  - apply Forall_cons in Hpre as [Hhd Hpre]. unfold writable in Hhd.
    simpl in Hhd. rewrite <- app_comm_cons, for_cons, emit_run, Hhd.
    by rewrite IH.
Qed.

(** Either no path of [l] is faulty, or there is a first faulty one. *)
Lemma first_fault l w :
  Forall (λ e, writable w (output_path e.1)) l ∨
  ∃ pre name color post fault,
    l = (pre ++ (name, color) :: post)%list ∧
    Forall (λ e, writable w (output_path e.1)) pre ∧
    faulty w !! output_path name = Some fault.
Proof.
  induction l as [|[name color] l IH]; [by left|].
  destruct (faulty w !! output_path name) as [fault|] eqn:E.
  - right. by exists [], name, color, l, fault.
  - destruct IH as [IH|(pre & n & c & post & fault & -> & Hpre & Hf)].
    + left. by constructor.
    + right. exists ((name, color) :: pre), n, c, post, fault.
      split_and!; [done| |done]. by constructor.
Qed.

End loop.

(** * Facts about [main] *)

Lemma main_run w :
  main w =
    match files w !! template_path with
    | None => (Raise (FileNotFoundError template_path), w)
    | Some t =>
        if decide (template_path ∈ unreadable w)
        then (Raise (PermissionError template_path), w)
        else for_ COLORS (emit t) w
    end.
Proof.
  unfold main, bind. change "sockettype_template.svg" with template_path.
  rewrite read_whole. destruct (files w !! template_path); [|done].
  by case_decide.
Qed.

Lemma writable_paths w (l : list (string * string)) :
  Forall (writable w) (map (output_path ∘ fst) l) ↔
  Forall (λ e, writable w (output_path e.1)) l.
Proof. apply Forall_fmap. Qed.

(** A run without I/O failure writes every entry. *)
Lemma main_ok w t :
  files w !! template_path = Some t →
  template_path ∉ unreadable w →
  Forall (writable w) output_paths →
  main w = (Ok tt, set_files (write_all t COLORS) w).
Proof.
  intros Ht Hr Hw. rewrite main_run, Ht, decide_False by done.
  apply for_emit_ok. by apply writable_paths.
Qed.

(** A run that ends well met no I/O failure. *)
Lemma main_ok_inv w :
  outcome w = Ok tt →
  ∃ t, files w !! template_path = Some t ∧
       (template_path ∉ unreadable w) ∧
       Forall (writable w) output_paths ∧
       after w = set_files (write_all t COLORS) w.
Proof.
  unfold outcome, after. rewrite main_run.
  destruct (files w !! template_path) as [t|] eqn:Ht; [|done].
  case_decide; [done|].
  destruct (first_fault COLORS w)
    as [Hw|(pre & n & c & post & fault & Hl & Hpre & Hf)].
  - intros _. exists t. rewrite for_emit_ok by done.
    split_and!; try done. by apply writable_paths.
  - rewrite Hl, (for_emit_raise t pre n c post fault) by done. done.
Qed.

(** * Facts about the marker and the fill declarations *)

Section colours.
Import Str StrFacts.
Implicit Types (color t : string).

Local Abbreviation marker_tail := "ill:#cc4c4c;".
Local Abbreviation fill_tail color := ("ill:#" +:+ color +:+ ";").

Lemma apart_spec c o d n :
  apart (String c o) (String d n) = true →
  overlaps o (String c o) = false ∧ overlaps o (String d n) = false ∧
  overlaps n (String c o) = false ∧ overlaps n (String d n) = false.
Proof.
  unfold apart. rewrite !andb_true_iff, !negb_true_iff. tauto.
Qed.

Lemma separated_spec color :
  separated color = true →
  apart marker (fill color) = true ∧
  String.length (fill color) = String.length marker ∧
  (color = "cc4c4c" ∨ fill color ≠ marker).
Proof.
  unfold separated.
  rewrite !andb_true_iff, orb_true_iff, negb_true_iff.
  rewrite Nat.eqb_eq, String.eqb_eq, String.eqb_neq. tauto.
Qed.

Lemma output_text_length color t :
  separated color = true →
  String.length (output_text t color) = String.length t.
Proof.
  intros (_ & Hlen & _)%separated_spec.
  by apply (replace_length "f" marker_tail).
Qed.

Lemma output_text_reference t : output_text t "cc4c4c" = t.
Proof. apply (replace_same "f" marker_tail). Qed.

Lemma output_text_absent color t :
  contains t marker = false → output_text t color = t.
Proof. apply (replace_absent "f" marker_tail). Qed.

Lemma output_text_recoloured color t : recoloured color t (output_text t color).
Proof.
  unfold output_text.
  induction t as [|r IH|a s Hs IH] using (scan_ind "f" marker_tail).
  - rewrite (replace_nil "f" marker_tail). constructor.
  - rewrite (replace_app "f" marker_tail). by constructor.
  - rewrite (replace_miss "f" marker_tail) by done. by constructor.
Qed.

(** No marker is left in the text written for another colour. *)
Lemma output_text_no_marker color t :
  separated color = true → color ≠ "cc4c4c" →
  contains (output_text t color) marker = false.
Proof.
  intros (Hap & Hlen & [?|Hne])%separated_spec Hc; [done|].
  apply (apart_spec "f" marker_tail "f" (fill_tail color)) in Hap
    as (_ & Hmp & Hpm & _).
  apply (replace_removes "f" marker_tail "f" (fill_tail color));
    [exact (λ E, Hne (eq_sym E))|done..].
Qed.

(** The way back: [fill color] replaced by the marker. *)
Lemma back_no_fill color t :
  separated color = true → color ≠ "cc4c4c" →
  contains (replace t (fill color) marker) (fill color) = false.
Proof.
  intros (Hap & Hlen & [?|Hne])%separated_spec Hc; [done|].
  apply (apart_spec "f" marker_tail "f" (fill_tail color)) in Hap
    as (_ & Hmp & Hpm & _).
  apply (replace_removes "f" (fill_tail color) "f" marker_tail);
    [exact Hne|done..].
Qed.

Lemma output_text_back color t :
  separated color = true →
  contains t (fill color) = false →
  replace (output_text t color) (fill color) marker = t.
Proof.
  intros (Hap & _)%separated_spec Hc.
  apply (apart_spec "f" marker_tail "f" (fill_tail color)) in Hap
    as (_ & _ & _ & Hpp).
  by apply (replace_back "f" marker_tail "f" (fill_tail color)).
Qed.

(** The round trip gives the template back exactly for the reference
    colour and for templates without the colour's own fill
    declaration. *)
Lemma output_text_back_iff color t :
  separated color = true →
  replace (output_text t color) (fill color) marker = t ↔
  color = "cc4c4c" ∨ contains t (fill color) = false.
Proof.
  intros Hsep. split.
  - intros Hback. destruct (decide (color = "cc4c4c")) as [|Hne];
      [by left|right].
    rewrite <- Hback. by apply back_no_fill.
  - intros [->|Hc]; [|by apply output_text_back].
    rewrite output_text_reference. apply (replace_same "f" marker_tail).
Qed.

Lemma separated_elem name color :
  (name, color) ∈ COLORS → separated color = true.
Proof.
  intros Hin. by apply (proj1 (Forall_forall _ _) COLORS_separated) in Hin.
Qed.

End colours.

(** * What a run leaves behind *)

Section runs.
Implicit Types (w : world) (t name color p : string).

Lemma fault_files_other fault path data (m : gmap string string) p :
  p ≠ path → fault_files fault path data m !! p = m !! p.
Proof.
  intros Hne. destruct fault as [|k]; [done|]. simpl.
  by rewrite lookup_insert_ne.
Qed.

Lemma after_output w t name color :
  after w = set_files (write_all t COLORS) w →
  (name, color) ∈ COLORS →
  files (after w) !! output_path name = Some (output_text t color).
Proof.
  intros -> Hin. rewrite files_set_files.
  apply write_all_lookup; [|done]. apply output_paths_unique.
Qed.

Lemma after_other w t p :
  after w = set_files (write_all t COLORS) w →
  p ∉ output_paths →
  files (after w) !! p = files w !! p.
Proof. intros -> Hp. rewrite files_set_files. by apply write_all_other. Qed.

(** Whatever the outcome, only output paths change. *)
Lemma only_outputs_change w p :
  p ∉ output_paths → files (after w) !! p = files w !! p.
Proof.
  intros Hp. unfold after. rewrite main_run.
  destruct (files w !! template_path) as [t|] eqn:Ht; [|done].
  case_decide; [done|].
  destruct (first_fault COLORS w)
    as [Hw|(pre & n & c & post & fault & Hl & Hpre & Hf)].
  - rewrite for_emit_ok by done. cbn [snd]. rewrite files_set_files.
    by apply write_all_other.
  - unfold output_paths in Hp. rewrite Hl in Hp |- *.
    rewrite (for_emit_raise t pre n c post fault) by done.
    cbn [snd]. rewrite files_set_files. cbn [compose].
    rewrite map_app in Hp. simpl in Hp.
    apply not_elem_of_app in Hp as [Hpre' Hp].
    apply not_elem_of_cons in Hp as [Hne _].
    rewrite fault_files_other by done. by apply write_all_other.
Qed.

Lemma permissions_kept w :
  unreadable (after w) = unreadable w ∧ faulty (after w) = faulty w.
Proof.
  unfold after. rewrite main_run.
  destruct (files w !! template_path) as [t|] eqn:Ht; [|done].
  case_decide; [done|].
  destruct (first_fault COLORS w)
    as [Hw|(pre & n & c & post & fault & Hl & Hpre & Hf)].
  - by rewrite for_emit_ok.
  - rewrite Hl. by rewrite (for_emit_raise t pre n c post fault).
Qed.

End runs.

(** * The properties of the specification *)

(** The specification's scenario: the template
    [<svg><rect fill:#cc4c4c; /></svg>] gives, for "bool",
    [<svg><rect fill:#cca6d6; /></svg>]. *)
Example scenario_bool :
  outcome sample_world = Ok tt ∧
  files (after sample_world) !! "sockettype_bool.svg" =
    Some "<svg><rect fill:#cca6d6; /></svg>".
Proof. by vm_compute. Qed.

(** C1. After a run that ends well, the file [sockettype_<name>.svg] of
    every entry [(name, color)] of the table exists and holds the template
    text in which [str.replace] has put [fill:#<color>;] for the marker
    [fill:#cc4c4c;].  The replacement is the plain substring one: the text
    written differs from the template only in fill declarations of the
    reference colour, and for a colour other than the reference colour no
    marker is left in it. *)
Theorem generated_file_content w name color :
  outcome w = Ok tt →
  (name, color) ∈ COLORS →
  ∃ t, files w !! template_path = Some t ∧
       files (after w) !! output_path name =
         Some (Str.replace t marker (fill color)) ∧
       recoloured color t (Str.replace t marker (fill color)) ∧
       (color ≠ "cc4c4c" →
        Str.contains (Str.replace t marker (fill color)) marker = false).
Proof.
  intros (t & Ht & _ & _ & Hafter)%main_ok_inv Hin. exists t.
  split_and!; [done| | |].
  - by apply (after_output w t name color).
  - apply output_text_recoloured.
  - apply output_text_no_marker. by apply (separated_elem name).
Qed.

Lemma generated_file_content_witness :
  ∃ t, files sample_world !! template_path = Some t ∧
       files (after sample_world) !! output_path "bool" =
         Some (Str.replace t marker (fill "cca6d6")) ∧
       recoloured "cca6d6" t (Str.replace t marker (fill "cca6d6")) ∧
       ("cca6d6" ≠ "cc4c4c" →
        Str.contains (Str.replace t marker (fill "cca6d6")) marker = false).
Proof.
  apply (generated_file_content sample_world "bool" "cca6d6").
  - vm_compute. reflexivity.
  - apply (bool_decide_unpack _). vm_compute. exact I.
Defined.

(** C2 at the level of the text.  A run that ends well produces as many
    output files as the table has entries, eleven: the output paths are that many, each of them
    exists afterwards, and no other path is created or changed.  Each
    output is the template except for the colour in fill declarations of
    the reference colour, character for character. *)
Theorem one_file_per_entry w :
  outcome w = Ok tt →
  length COLORS = 11 ∧
  size (list_to_set output_paths : gset string) = length COLORS ∧
  dom (files (after w)) = dom (files w) ∪ list_to_set output_paths ∧
  (∀ p, p ∉ output_paths → files (after w) !! p = files w !! p) ∧
  ∃ t, files w !! template_path = Some t ∧
       ∀ name color, (name, color) ∈ COLORS →
         ∃ out, files (after w) !! output_path name = Some out ∧
                recoloured color t out ∧
                String.length out = String.length t.
Proof.
  intros (t & Ht & _ & _ & Hafter)%main_ok_inv. split_and!.
  - reflexivity.
  - rewrite size_list_to_set by apply output_paths_unique.
    unfold output_paths. by rewrite length_map.
  - rewrite Hafter, files_set_files. apply write_all_dom.
  - intros p. apply only_outputs_change.
  - exists t. split; [done|]. intros name color Hin.
    exists (output_text t color). split_and!.
    + by apply after_output.
    + apply output_text_recoloured.
    + apply output_text_length. by apply (separated_elem name).
Qed.

Lemma one_file_per_entry_witness :
  length COLORS = 11 ∧
  size (list_to_set output_paths : gset string) = length COLORS ∧
  dom (files (after sample_world)) =
    dom (files sample_world) ∪ list_to_set output_paths ∧
  (∀ p, p ∉ output_paths →
        files (after sample_world) !! p = files sample_world !! p) ∧
  ∃ t, files sample_world !! template_path = Some t ∧
       ∀ name color, (name, color) ∈ COLORS →
         ∃ out, files (after sample_world) !! output_path name = Some out ∧
                recoloured color t out ∧
                String.length out = String.length t.
Proof.
  apply (one_file_per_entry sample_world). vm_compute. reflexivity.
Defined.

(** C3, as the specification states it, fails: a template that already
    carries [fill:#cccccc;] is written unchanged for "animation", and the
    way back turns that declaration into the marker. *)
Lemma round_trip_counterexample :
  outcome grey_world = Ok tt ∧
  ("animation", "cccccc") ∈ COLORS ∧
  files grey_world !! template_path =
    Some "<svg><rect fill:#cccccc; /></svg>" ∧
  files (after grey_world) !! output_path "animation" =
    Some "<svg><rect fill:#cccccc; /></svg>" ∧
  Str.replace "<svg><rect fill:#cccccc; /></svg>" (fill "cccccc") marker =
    "<svg><rect fill:#cc4c4c; /></svg>" ∧
  Str.replace "<svg><rect fill:#cccccc; /></svg>" (fill "cccccc") marker ≠
    "<svg><rect fill:#cccccc; /></svg>".
Proof.
  split_and!; try by vm_compute.
  apply (bool_decide_unpack _). vm_compute. exact I.
Qed.

(** C3, amended.  For every entry of the table and every template,
    replacing [fill:#<color>;] in the entry's output by the marker gives
    the template back exactly when the colour is the reference colour
    [cc4c4c] or the template holds no [fill:#<color>;] of its own. *)
Theorem round_trip_iff w name color :
  outcome w = Ok tt →
  (name, color) ∈ COLORS →
  ∃ t out,
    files w !! template_path = Some t ∧
    files (after w) !! output_path name = Some out ∧
    (Str.replace out (fill color) marker = t ↔
     color = "cc4c4c" ∨ Str.contains t (fill color) = false).
Proof.
  intros (t & Ht & _ & _ & Hafter)%main_ok_inv Hin.
  exists t, (output_text t color). split_and!; [done| |].
  - by apply after_output.
  - apply output_text_back_iff. by apply (separated_elem name).
Qed.

Lemma round_trip_iff_witness :
  ∃ t out,
    files sample_world !! template_path = Some t ∧
    files (after sample_world) !! output_path "vector" = Some out ∧
    (Str.replace out (fill "6363c7") marker = t ↔
     "6363c7" = "cc4c4c" ∨ Str.contains t (fill "6363c7") = false).
Proof.
  apply (round_trip_iff sample_world "vector" "6363c7").
  - vm_compute. reflexivity.
  - apply (bool_decide_unpack _). vm_compute. exact I.
Defined.

(** C4. The output files are a function of the template text and the
    table: a second run over what the first one left ends well and
    changes nothing, and two runs that read the same template text write
    the same text at every output path. *)
Theorem rerun_same_files w :
  outcome w = Ok tt →
  main (after w) = (Ok tt, after w) ∧
  ∀ w2, outcome w2 = Ok tt →
        files w2 !! template_path = files w !! template_path →
        ∀ name color, (name, color) ∈ COLORS →
          files (after w2) !! output_path name =
          files (after w) !! output_path name.
Proof.
  intros (t & Ht & Hr & Hw & Hafter)%main_ok_inv. split.
  - rewrite Hafter. rewrite (main_ok _ t).
    + f_equal. rewrite set_files_set_files. apply set_files_ext.
      apply write_all_again, output_paths_unique.
    + rewrite files_set_files, write_all_other; [done|].
      apply template_not_output.
    + done.
    + done.
  - intros w2 (t2 & Ht2 & _ & _ & Hafter2)%main_ok_inv Hsame name color Hin.
    rewrite (after_output w t name color), (after_output w2 t2 name color)
      by done.
    congruence.
Qed.

Lemma rerun_same_files_witness :
  main (after sample_world) = (Ok tt, after sample_world) ∧
  ∀ w2, outcome w2 = Ok tt →
        files w2 !! template_path = files sample_world !! template_path →
        ∀ name color, (name, color) ∈ COLORS →
          files (after w2) !! output_path name =
          files (after sample_world) !! output_path name.
Proof.
  apply (rerun_same_files sample_world). vm_compute. reflexivity.
Defined.

(** C5. A template without the marker: if reading and writing meet no I/O
    failure the run ends well all the same, and every output file holds
    the template text as it is. *)
Theorem template_without_marker w t :
  files w !! template_path = Some t →
  template_path ∉ unreadable w →
  Forall (writable w) output_paths →
  Str.contains t marker = false →
  outcome w = Ok tt ∧
  ∀ name color, (name, color) ∈ COLORS →
    files (after w) !! output_path name = Some t.
Proof.
  intros Ht Hr Hw Hc. pose proof (main_ok w t Ht Hr Hw) as Hmain.
  unfold outcome, after. rewrite Hmain. split; [done|].
  intros name color Hin. cbn [snd]. rewrite files_set_files.
  rewrite (write_all_lookup t COLORS _ name color);
    [|apply output_paths_unique|done].
  by rewrite output_text_absent.
Qed.

Lemma template_without_marker_witness :
  outcome plain_world = Ok tt ∧
  ∀ name color, (name, color) ∈ COLORS →
    files (after plain_world) !! output_path name =
      Some "<svg><rect /></svg>".
Proof.
  apply (template_without_marker plain_world "<svg><rect /></svg>").
  - vm_compute. reflexivity.
  - apply (bool_decide_unpack _). vm_compute. exact I.
  - apply (bool_decide_unpack _). vm_compute. exact I.
  - vm_compute. reflexivity.
Defined.

(** C6. A template that is missing or cannot be read: the run raises the
    I/O error of the template path and leaves the world as it was; no
    output file is created, the template being read before anything is
    opened for writing. *)
Theorem template_missing_or_unreadable w :
  files w !! template_path = None ∨ template_path ∈ unreadable w →
  outcome w =
    Raise (match files w !! template_path with
           | None => FileNotFoundError template_path
           | Some _ => PermissionError template_path
           end) ∧
  after w = w.
Proof.
  intros Hbad. unfold outcome, after. rewrite main_run.
  destruct (files w !! template_path) as [t|]; [|done].
  destruct Hbad as [|Hbad]; [done|]. by rewrite decide_True.
Qed.

Lemma template_missing_or_unreadable_witness :
  (outcome empty_world = Raise (FileNotFoundError template_path) ∧
   after empty_world = empty_world) ∧
  (outcome locked_world = Raise (PermissionError template_path) ∧
   after locked_world = locked_world).
Proof.
  split.
  - apply (template_missing_or_unreadable empty_world). left.
    vm_compute. reflexivity.
  - apply (template_missing_or_unreadable locked_world). right.
    apply (bool_decide_unpack _). vm_compute. exact I.
Defined.

(** C7. A failure while writing: when the output of an entry cannot be
    opened or written, the run stops there with that path's error.  The
    files of the entries before it hold what was written for them, and
    nothing is undone; the files of the entries behind it, and every path
    that is no output path, are as they were before the run. *)
Theorem write_failure_keeps_earlier w t pre name color post fault :
  files w !! template_path = Some t →
  template_path ∉ unreadable w →
  COLORS = (pre ++ (name, color) :: post)%list →
  Forall (λ e, writable w (output_path e.1)) pre →
  faulty w !! output_path name = Some fault →
  outcome w = Raise (fault_error fault (output_path name)) ∧
  (∀ n c, (n, c) ∈ pre →
     files (after w) !! output_path n = Some (output_text t c)) ∧
  (∀ n c, (n, c) ∈ post →
     files (after w) !! output_path n = files w !! output_path n) ∧
  (∀ p, p ∉ output_paths → files (after w) !! p = files w !! p).
Proof.
  intros Ht Hr Hl Hpre Hf.
  pose proof output_paths_unique as Hnd. unfold output_paths in Hnd.
  rewrite Hl, map_app in Hnd. cbn [map] in Hnd.
  apply NoDup_app in Hnd as (Hnd_pre & Hpre_rest & Hnd_rest).
  apply NoDup_cons in Hnd_rest as [Hname_post _].
  assert (main w =
    (Raise (fault_error fault (output_path name)),
     set_files
       (fault_files fault (output_path name) (output_text t color) ∘
        write_all t pre) w)) as Hmain.
  { rewrite main_run, Ht, decide_False, Hl by done.
    by apply for_emit_raise. }
  unfold outcome, after. rewrite Hmain. cbn [fst snd].
  rewrite files_set_files. cbn [compose]. split_and!.
  - done.
  - intros n c Hin.
    assert (output_path n ∈ map (output_path ∘ fst) pre) as Hn.
    { apply list_elem_of_fmap. by exists (n, c). }
    rewrite fault_files_other.
    + by apply write_all_lookup.
    + intros E. apply (Hpre_rest _ Hn). rewrite E. by left.
  - intros n c Hin.
    assert (output_path n ∈ map (output_path ∘ fst) post) as Hn.
    { apply list_elem_of_fmap. by exists (n, c). }
    rewrite fault_files_other by (intros E; by rewrite E in Hn).
    apply write_all_other. intros Hn'. apply (Hpre_rest _ Hn').
    by right.
  - intros p Hp. rewrite <- (only_outputs_change w p Hp).
    unfold after. by rewrite Hmain.
Qed.

Lemma write_failure_keeps_earlier_witness :
  outcome full_world = Raise (WriteError "sockettype_bool.svg") ∧
  (∀ n c, (n, c) ∈ [("action", "cc4c4c"); ("animation", "cccccc");
                    ("array", "cc6600")] →
     files (after full_world) !! output_path n =
       Some (output_text "<svg><rect fill:#cc4c4c; /></svg>" c)) ∧
  (∀ n c, (n, c) ∈ [("color", "c7c729"); ("dynamic", "63c763");
                    ("float", "a1a1a1"); ("integer", "0f8526");
                    ("object", "268cbf"); ("string", "70b2ff");
                    ("vector", "6363c7")] →
     files (after full_world) !! output_path n =
       files full_world !! output_path n) ∧
  (∀ p, p ∉ output_paths →
     files (after full_world) !! p = files full_world !! p).
Proof.
  apply (write_failure_keeps_earlier full_world
           "<svg><rect fill:#cc4c4c; /></svg>"
           [("action", "cc4c4c"); ("animation", "cccccc");
            ("array", "cc6600")]
           "bool" "cca6d6"
           [("color", "c7c729"); ("dynamic", "63c763");
            ("float", "a1a1a1"); ("integer", "0f8526");
            ("object", "268cbf"); ("string", "70b2ff");
            ("vector", "6363c7")]
           (WriteFails 5)).
  - vm_compute. reflexivity.
  - apply (bool_decide_unpack _). vm_compute. exact I.
  - reflexivity.
  - apply (bool_decide_unpack _). vm_compute. exact I.
  - vm_compute. reflexivity.
Defined.

(** What the failed run of [full_world] leaves: the older icon for
    "array" is overwritten, the icon for "bool" holds the five characters
    that were written, and no icon for "color" exists. *)
Example full_world_after :
  files (after full_world) !! "sockettype_array.svg" =
    Some "<svg><rect fill:#cc6600; /></svg>" ∧
  files (after full_world) !! "sockettype_bool.svg" = Some "<svg>" ∧
  files (after full_world) !! "sockettype_color.svg" = None.
Proof. by vm_compute. Qed.

(** C8. Frame.  A run that ends well writes one file per entry of the
    table: the output paths are distinct, as many as the entries, and name
    files of the working directory; each holds the text written for its
    entry whatever it held before.  Every other path is as it was, the
    template among them, and so is what can be read and written. *)
Theorem frame w :
  outcome w = Ok tt →
  NoDup output_paths ∧
  length output_paths = length COLORS ∧
  Forall (λ p, in_cwd p = true) output_paths ∧
  (∃ t, files w !! template_path = Some t ∧
        ∀ name color, (name, color) ∈ COLORS →
          files (after w) !! output_path name =
            Some (output_text t color)) ∧
  (∀ p, p ∉ output_paths → files (after w) !! p = files w !! p) ∧
  (template_path ∉ output_paths) ∧
  files (after w) !! template_path = files w !! template_path ∧
  unreadable (after w) = unreadable w ∧
  faulty (after w) = faulty w.
Proof.
  intros (t & Ht & _ & _ & Hafter)%main_ok_inv.
  destruct (permissions_kept w) as [Hu Hf]. split_and!.
  - apply output_paths_unique.
  - unfold output_paths. by rewrite length_map.
  - apply output_paths_in_cwd.
  - exists t. split; [done|]. intros name color Hin.
    by apply after_output.
  - intros p. apply only_outputs_change.
  - apply template_not_output.
  - apply only_outputs_change, template_not_output.
  - done.
  - done.
Qed.

Lemma frame_witness :
  NoDup output_paths ∧
  length output_paths = length COLORS ∧
  Forall (λ p, in_cwd p = true) output_paths ∧
  (∃ t, files used_world !! template_path = Some t ∧
        ∀ name color, (name, color) ∈ COLORS →
          files (after used_world) !! output_path name =
            Some (output_text t color)) ∧
  (∀ p, p ∉ output_paths →
        files (after used_world) !! p = files used_world !! p) ∧
  (template_path ∉ output_paths) ∧
  files (after used_world) !! template_path =
    files used_world !! template_path ∧
  unreadable (after used_world) = unreadable used_world ∧
  faulty (after used_world) = faulty used_world.
Proof.
  apply (frame used_world). vm_compute. reflexivity.
Defined.

Example used_world_after :
  files (after used_world) !! "sockettype_float.svg" =
    Some "<svg><rect fill:#a1a1a1; /></svg>" ∧
  files (after used_world) !! "notes.txt" = Some "keep".
Proof. by vm_compute. Qed.

(** C9. Length.  Every colour of the table is six hexadecimal digits, so
    its fill declaration is as long as the marker, and the text written
    for an entry is as long as the template, for every template. *)
Theorem output_same_length name color :
  (name, color) ∈ COLORS →
  hex_color color = true ∧
  String.length (fill color) = String.length marker ∧
  (∀ t, String.length (Str.replace t marker (fill color)) =
        String.length t) ∧
  (∀ w, outcome w = Ok tt →
     ∃ t out, files w !! template_path = Some t ∧
              files (after w) !! output_path name = Some out ∧
              String.length out = String.length t).
Proof.
  intros Hin. pose proof (separated_elem name color Hin) as Hsep.
  split_and!.
  - by apply (proj1 (Forall_forall _ _) COLORS_hex) in Hin.
  - by apply separated_spec in Hsep as (_ & ? & _).
  - intros t. by apply output_text_length.
  - intros w (t & Ht & _ & _ & Hafter)%main_ok_inv.
    exists t, (output_text t color). split_and!; [done| |].
    + by apply after_output.
    + by apply output_text_length.
Qed.

Lemma output_same_length_witness :
  hex_color "70b2ff" = true ∧
  String.length (fill "70b2ff") = String.length marker ∧
  (∀ t, String.length (Str.replace t marker (fill "70b2ff")) =
        String.length t) ∧
  (∀ w, outcome w = Ok tt →
     ∃ t out, files w !! template_path = Some t ∧
              files (after w) !! output_path "string" = Some out ∧
              String.length out = String.length t).
Proof.
  apply (output_same_length "string" "70b2ff").
  apply (bool_decide_unpack _). vm_compute. exact I.
Defined.

(** C10 at the level of the text.  The entry "action" carries the
    reference colour: its fill
    declaration is the marker, the replacement is the identity on every
    text, and the file written for it holds the template text. *)
Theorem action_is_copy w :
  outcome w = Ok tt →
  ("action", "cc4c4c") ∈ COLORS ∧
  fill "cc4c4c" = marker ∧
  (∀ t, Str.replace t marker (fill "cc4c4c") = t) ∧
  ∃ t, files w !! template_path = Some t ∧
       files (after w) !! output_path "action" = Some t.
Proof.
  intros (t & Ht & _ & _ & Hafter)%main_ok_inv.
  assert (("action", "cc4c4c") ∈ COLORS) as Hin by (by left).
  split_and!; [done|done| |].
  - apply output_text_reference.
  - exists t. split; [done|].
    rewrite (after_output w t "action" "cc4c4c") by done.
    by rewrite output_text_reference.
Qed.

Lemma action_is_copy_witness :
  ("action", "cc4c4c") ∈ COLORS ∧
  fill "cc4c4c" = marker ∧
  (∀ t, Str.replace t marker (fill "cc4c4c") = t) ∧
  ∃ t, files sample_world !! template_path = Some t ∧
       files (after sample_world) !! output_path "action" = Some t.
Proof.
  apply (action_is_copy sample_world). vm_compute. reflexivity.
Defined.

(** * Further properties of the script *)

Section more_strings.
Import Str StrFacts.

(** Equally long prefixes of one text are the same. *)
Lemma app_inj_length a b x y :
  String.length a = String.length b →
  a +:+ x = b +:+ y → a = b ∧ x = y.
Proof.
  revert b; induction a as [|c a IH]; intros [|d b] Hlen; simpl in Hlen;
    try lia.
  - by rewrite !app_nil_l.
  - rewrite !app_cons. intros [= -> H]. apply IH in H as [-> ->]; [done|lia].
Qed.

Lemma app_inj_r x a b : a +:+ x = b +:+ x → a = b.
Proof.
  intros H. apply (app_inj_length a b x x); [|done].
  apply (f_equal String.length) in H. rewrite !length_app in H. lia.
Qed.

Lemma fill_inj c1 c2 : fill c1 = fill c2 → c1 = c2.
Proof.
  unfold fill. intros H%String.app_inj. by apply app_inj_r in H.
Qed.

Lemma contains_miss a s p :
  startswith (String a s) p = false →
  contains (String a s) p = contains s p.
Proof. intros H. by rewrite contains_cons, H. Qed.

(** Where [old] occurs, the output tells which text was put for it. *)
Lemma replace_inj_new c o n1 n2 s :
  String.length n1 = String.length n2 →
  contains s (String c o) = true →
  replace s (String c o) n1 = replace s (String c o) n2 →
  n1 = n2.
Proof.
  intros Hlen. induction s as [|r IH|a s Hs IH] using (scan_ind c o).
  - done.
  - intros _. rewrite !replace_app. intros H.
    by apply app_inj_length in H as [? _].
  - rewrite contains_miss by (by apply startswith_false).
    rewrite !replace_miss by done. intros Hc [= H]. by apply IH.
Qed.

End more_strings.

(** X1 at the level of the text.  A run ends well exactly when the
    template exists, may be read, and no output path is faulty; the marker
    plays no part in it. *)
Theorem run_succeeds_iff w :
  outcome w = Ok tt ↔
  is_Some (files w !! template_path) ∧
  (template_path ∉ unreadable w) ∧
  Forall (writable w) output_paths.
Proof.
  split.
  - intros (t & Ht & Hr & Hw & _)%main_ok_inv. by rewrite Ht.
  - intros ([t Ht] & Hr & Hw). unfold outcome. by rewrite (main_ok w t).
Qed.

Lemma COLORS_colors_unique : NoDup (map snd COLORS).
Proof. compute_done. Qed.

Lemma NoDup_snd_inj {A B} (l : list (A * B)) a b c :
  NoDup (map snd l) → (a, c) ∈ l → (b, c) ∈ l → a = b.
Proof.
  induction l as [|[a' c'] l IH]; intros Hnd Ha Hb.
  - by apply elem_of_nil in Ha.
  - simpl in Hnd. apply NoDup_cons in Hnd as [Hfresh Hnd].
    assert (∀ x, (x, c') ∈ l → False) as Hno.
    { intros x Hx. apply Hfresh. apply list_elem_of_fmap. by exists (x, c'). }
    apply elem_of_cons in Ha as [Ha|Ha];
      apply elem_of_cons in Hb as [Hb|Hb]; simplify_eq;
      try done; try (exfalso; eauto; fail).
    by apply IH.
Qed.

(** X2. Over a template that holds the marker, the files of two different
    entries hold different texts: the eleven icons are pairwise
    distinct. *)
Theorem outputs_differ w t n1 c1 n2 c2 :
  outcome w = Ok tt →
  files w !! template_path = Some t →
  Str.contains t marker = true →
  (n1, c1) ∈ COLORS → (n2, c2) ∈ COLORS → n1 ≠ n2 →
  files (after w) !! output_path n1 ≠ files (after w) !! output_path n2.
Proof.
  intros (t' & Ht' & _ & _ & Hafter)%main_ok_inv Ht Hc H1 H2 Hne.
  assert (t' = t) as -> by congruence.
  rewrite (after_output w t n1 c1), (after_output w t n2 c2) by done.
  intros [= H]. apply Hne.
  apply (NoDup_snd_inj COLORS n1 n2 c1); [apply COLORS_colors_unique|done|].
  replace c1 with c2; [done|]. symmetry. apply fill_inj.
  apply (replace_inj_new "f" "ill:#cc4c4c;" _ _ t); [|done|done].
  apply separated_elem, separated_spec in H1 as (_ & -> & _).
  by apply separated_elem, separated_spec in H2 as (_ & -> & _).
Qed.

Lemma outputs_differ_witness :
  files (after sample_world) !! output_path "bool" ≠
  files (after sample_world) !! output_path "color".
Proof.
  apply (outputs_differ sample_world "<svg><rect fill:#cc4c4c; /></svg>"
           "bool" "cca6d6" "color" "c7c729").
  - vm_compute. reflexivity.
  - vm_compute. reflexivity.
  - vm_compute. reflexivity.
  - apply (bool_decide_unpack _). vm_compute. exact I.
  - apply (bool_decide_unpack _). vm_compute. exact I.
  - apply (bool_decide_unpack _). vm_compute. exact I.
Defined.

(** X3. The file of an entry holds the very text of the template exactly
    when the entry's colour is the reference colour or the template holds
    no marker. *)
Theorem output_is_template_iff w t name color :
  outcome w = Ok tt →
  files w !! template_path = Some t →
  (name, color) ∈ COLORS →
  files (after w) !! output_path name = Some t ↔
  color = "cc4c4c" ∨ Str.contains t marker = false.
Proof.
  intros (t' & Ht' & _ & _ & Hafter)%main_ok_inv Ht Hin.
  assert (t' = t) as -> by congruence.
  rewrite (after_output w t name color) by done. split.
  - intros [= H]. destruct (decide (color = "cc4c4c")) as [|Hne];
      [by left|right].
    rewrite <- H. apply output_text_no_marker; [|done].
    by apply (separated_elem name).
  - intros [->|Hc].
    + by rewrite output_text_reference.
    + by rewrite output_text_absent.
Qed.

Lemma output_is_template_iff_witness :
  files (after sample_world) !! output_path "float" =
    Some "<svg><rect fill:#cc4c4c; /></svg>" ↔
  "a1a1a1" = "cc4c4c" ∨
  Str.contains "<svg><rect fill:#cc4c4c; /></svg>" marker = false.
Proof.
  apply (output_is_template_iff sample_world).
  - vm_compute. reflexivity.
  - vm_compute. reflexivity.
  - apply (bool_decide_unpack _). vm_compute. exact I.
Defined.

(** X4. Different socket types have different output files, whatever the
    names are: the file name determines the socket type. *)
Theorem output_path_inj a b : output_path a = output_path b ↔ a = b.
Proof.
  split; [|by intros ->].
  unfold output_path. intros H%String.app_inj. by apply app_inj_r in H.
Qed.

(** X5. The output file of a socket type is the template file exactly for
    the name "template"; no other name makes the script write over what it
    read. *)
Theorem output_path_template name :
  output_path name = template_path ↔ name = "template".
Proof.
  split; [|by intros ->].
  change template_path with (output_path "template").
  unfold output_path. intros H%String.app_inj. by apply app_inj_r in H.
Qed.

(* [set_solver] clears hypotheses it has already consumed. *)
#[local] Set Warnings "-clear-no-such-hyp".

Lemma fault_files_dom fault path data (m : gmap string string) :
  dom m ⊆ dom (fault_files fault path data m) ∧
  dom (fault_files fault path data m) ⊆ dom m ∪ {[path]}.
Proof.
  destruct fault as [|k]; simpl.
  - set_solver.
  - rewrite dom_insert_L. set_solver.
Qed.

(** X6. Whatever its outcome, a run removes no file, and the only files it
    can create are the output files. *)
Theorem run_keeps_files w :
  dom (files w) ⊆ dom (files (after w)) ∧
  dom (files (after w)) ⊆ dom (files w) ∪ list_to_set output_paths.
Proof.
  unfold after. rewrite main_run.
  destruct (files w !! template_path) as [t|] eqn:Ht; [|set_solver].
  case_decide; [set_solver|].
  destruct (first_fault COLORS w)
    as [Hw|(pre & n & c & post & fault & Hl & Hpre & Hf)].
  - rewrite for_emit_ok by done. cbn [snd]. rewrite files_set_files.
    rewrite write_all_dom. fold output_paths. set_solver.
  - unfold output_paths. rewrite Hl.
    rewrite (for_emit_raise t pre n c post fault) by done.
    cbn [snd]. rewrite files_set_files. cbn [compose].
    pose proof (fault_files_dom fault (output_path n) (output_text t c)
                  (write_all t pre (files w))) as [Hsub Hsup].
    rewrite write_all_dom in Hsub, Hsup. rewrite map_app. cbn [map].
    rewrite list_to_set_app_L, list_to_set_cons. cbn [compose fst].
    set_solver.
Qed.

(** X7. The files are written in place.  When the write of an entry is cut
    short, its file holds the characters that were written, and what it
    held before is lost; when the file cannot be opened, it keeps what it
    held. *)
Theorem failed_entry_file w t pre name color post fault :
  files w !! template_path = Some t →
  template_path ∉ unreadable w →
  COLORS = (pre ++ (name, color) :: post)%list →
  Forall (λ e, writable w (output_path e.1)) pre →
  faulty w !! output_path name = Some fault →
  files (after w) !! output_path name =
    match fault with
    | OpenFails => files w !! output_path name
    | WriteFails k => Some (substring 0 k (output_text t color))
    end.
Proof.
  intros Ht Hr Hl Hpre Hf.
  pose proof output_paths_unique as Hnd. unfold output_paths in Hnd.
  rewrite Hl, map_app in Hnd. cbn [map] in Hnd.
  apply NoDup_app in Hnd as (_ & Hpre_rest & _).
  unfold after. rewrite main_run, Ht, decide_False, Hl by done.
  rewrite (for_emit_raise t pre name color post fault) by done.
  cbn [snd]. rewrite files_set_files. cbn [compose].
  destruct fault as [|k]; simpl.
  - apply write_all_other. intros Hin. apply (Hpre_rest _ Hin). by left.
  - apply lookup_insert_eq.
Qed.

Lemma failed_entry_file_witness :
  files (after full_world) !! output_path "bool" =
    Some (substring 0 5
            (output_text "<svg><rect fill:#cc4c4c; /></svg>" "cca6d6")).
Proof.
  apply (failed_entry_file full_world
           "<svg><rect fill:#cc4c4c; /></svg>"
           [("action", "cc4c4c"); ("animation", "cccccc");
            ("array", "cc6600")]
           "bool" "cca6d6"
           [("color", "c7c729"); ("dynamic", "63c763");
            ("float", "a1a1a1"); ("integer", "0f8526");
            ("object", "268cbf"); ("string", "70b2ff");
            ("vector", "6363c7")]
           (WriteFails 5)).
  - vm_compute. reflexivity.
  - apply (bool_decide_unpack _). vm_compute. exact I.
  - reflexivity.
  - apply (bool_decide_unpack _). vm_compute. exact I.
  - vm_compute. reflexivity.
Defined.

(** X8. An icon written for a colour other than the reference colour is
    no template any more: with it as the template, the text written for
    every colour is that icon itself. *)
Theorem output_as_template name color t color' :
  (name, color) ∈ COLORS →
  color ≠ "cc4c4c" →
  output_text (output_text t color) color' = output_text t color.
Proof.
  intros Hin Hne. apply output_text_absent, output_text_no_marker; [|done].
  by apply (separated_elem name).
Qed.

Lemma output_as_template_witness :
  output_text (output_text "<svg><rect fill:#cc4c4c; /></svg>" "cca6d6")
    "c7c729" =
  output_text "<svg><rect fill:#cc4c4c; /></svg>" "cca6d6".
Proof.
  apply (output_as_template "bool" "cca6d6").
  - apply (bool_decide_unpack _). vm_compute. exact I.
  - apply (bool_decide_unpack _). vm_compute. exact I.
Defined.

(** ** Counting occurrences *)

Section counting.
Import Str StrFacts.
Context (c : ascii) (o : string).
Local Abbreviation sub := (String c o).

Lemma count_nil : count "" sub = 0.
Proof. by simp count. Qed.

Lemma count_hit s r :
  strip_prefix sub s = Some r → count s sub = S (count r sub).
Proof.
  intros H. destruct s as [|a s]; [discriminate|]. simp count.
  destruct (inspect (strip_prefix sub (String a s))) as [[r'|] Heq];
    simpl; congruence.
Qed.

Lemma count_miss a s :
  strip_prefix sub (String a s) = None → count (String a s) sub = count s sub.
Proof.
  intros H. simp count.
  destruct (inspect (strip_prefix sub (String a s))) as [[r'|] Heq];
    simpl; congruence.
Qed.

Lemma count_app s : count (sub +:+ s) sub = S (count s sub).
Proof. apply count_hit, strip_prefix_app. Qed.

(** No occurrence starts inside a piece shorter than [sub] that cannot
    run into [sub]: the scan passes it. *)
Lemma miss_inside a y r :
  overlaps (String a y) sub = false →
  (String.length (String a y) ≤ String.length sub)%nat →
  String a y ≠ sub →
  strip_prefix sub (String a y +:+ r) = None.
Proof.
  intros Hov Hlen Hne. apply startswith_false.
  destruct (startswith (String a y +:+ r) sub) eqn:E; [|done].
  simpl in Hov. apply orb_false_iff in Hov as [Hy _].
  destruct (decide (String.length (String a y) = String.length sub))
    as [Heq|Hlt].
  - rewrite startswith_short in E by lia.
    apply startswith_same_length in E; [done|lia].
  - apply startswith_long in E; [congruence|lia].
Qed.

Lemma count_behind y r :
  overlaps y sub = false →
  (String.length y < String.length sub)%nat →
  count (y +:+ r) sub = count r sub.
Proof.
  intros Hov Hlen. induction y as [|a y IH]; [done|].
  rewrite app_cons, count_miss.
  - apply IH; [|simpl in *; lia].
    simpl in Hov. by apply orb_false_iff in Hov as [_ ?].
  - rewrite <- app_cons. apply miss_inside; [done|lia|].
    intros E. rewrite E in Hlen. lia.
Qed.

Lemma replace_behind new y r :
  overlaps y sub = false →
  (String.length y < String.length sub)%nat →
  replace (y +:+ r) sub new = y +:+ replace r sub new.
Proof.
  intros Hov Hlen. induction y as [|a y IH]; [done|].
  rewrite app_cons, replace_miss.
  - rewrite IH; [done| |simpl in *; lia].
    simpl in Hov. by apply orb_false_iff in Hov as [_ ?].
  - rewrite <- app_cons. apply miss_inside; [done|lia|].
    intros E. rewrite E in Hlen. lia.
Qed.

(** The scan for [sub] passes an occurrence of another text [x] of the
    same length that cannot run into [sub]. *)
Lemma count_over d n r :
  String d n ≠ sub →
  String.length (String d n) = String.length sub →
  overlaps (String d n) sub = false →
  count (String d n +:+ r) sub = count r sub.
Proof.
  intros Hne Hlen Hov. rewrite app_cons, count_miss.
  - apply count_behind; [|simpl in *; lia].
    simpl in Hov. by apply orb_false_iff in Hov as [_ ?].
  - rewrite <- app_cons. apply miss_inside; [done|lia|done].
Qed.

Lemma replace_over new d n r :
  String d n ≠ sub →
  String.length (String d n) = String.length sub →
  overlaps (String d n) sub = false →
  replace (String d n +:+ r) sub new = String d n +:+ replace r sub new.
Proof.
  intros Hne Hlen Hov. rewrite app_cons, replace_miss.
  - rewrite replace_behind; [done| |simpl in *; lia].
    simpl in Hov. by apply orb_false_iff in Hov as [_ ?].
  - rewrite <- app_cons. apply miss_inside; [done|lia|done].
Qed.

End counting.

Section accounting.
Import Str StrFacts.
Context (c : ascii) (o : string) (d : ascii) (n : string).
Local Abbreviation old := (String c o).
Local Abbreviation new := (String d n).

Lemma overlaps_whole a x y :
  String a x ≠ y →
  String.length (String a x) = String.length y →
  overlaps x y = false →
  overlaps (String a x) y = false.
Proof.
  intros Hne Hlen Hov. simpl. rewrite Hov, orb_false_r.
  destruct (startswith y (String a x)) eqn:E; [|done].
  apply startswith_same_length in E; [congruence|lia].
Qed.

(** The occurrences of [new] in the output are the ones put for [old] and
    the ones the text had. *)
Lemma count_replace t :
  old ≠ new →
  String.length new = String.length old →
  overlaps o new = false →
  overlaps n old = false →
  overlaps n new = false →
  count (replace t old new) new = count t old + count t new.
Proof.
  intros Hne Hlen Hon Hno Hnn.
  assert (overlaps old new = false) as Hold
    by (apply overlaps_whole; [done|lia|done]).
  assert (overlaps new old = false) as Hnew
    by (apply overlaps_whole; [congruence|lia|done]).
  remember (String.length t) as k eqn:Hk. revert t Hk.
  induction k as [k IH] using lt_wf_ind. intros [|a s] ->.
  { by rewrite replace_nil, !count_nil. }
  destruct (strip_prefix old (String a s)) as [r|] eqn:Hm.
  - pose proof (strip_prefix_length _ _ _ Hm) as Hr.
    rewrite (strip_prefix_Some _ _ _ Hm).
    rewrite replace_app, !count_app, (count_over d n c o) by done.
    rewrite (IH (String.length r)); [done| |done]. simpl in *. lia.
  - destruct (strip_prefix new (String a s)) as [r|] eqn:Hp.
    + pose proof (strip_prefix_length _ _ _ Hp) as Hr.
      rewrite (strip_prefix_Some _ _ _ Hp).
      rewrite (replace_over c o) by (done || congruence).
      rewrite !count_app, (count_over c o d n) by (done || congruence).
      rewrite (IH (String.length r)); [lia| |done]. simpl in *. lia.
    + assert (strip_prefix new (replace (String a s) old new) = None) as Hq.
      { apply startswith_false.
        destruct (startswith (replace (String a s) old new) new) eqn:E;
          [|done].
        apply startswith_replace_miss in E; [|done..|simpl; lia].
        apply startswith_false in Hp. congruence. }
      rewrite replace_miss in Hq |- * by done.
      rewrite !count_miss by done.
      apply (IH (String.length s)); [simpl; lia|done].
Qed.

End accounting.

(** X9. For a colour of the table other than the reference colour, the
    text written holds as many fill declarations of that colour as the
    template holds markers and such declarations together: one is put for
    every marker and none is made or lost. *)
Theorem fills_accounted name color t :
  (name, color) ∈ COLORS →
  color ≠ "cc4c4c" →
  count (output_text t color) (fill color) =
    count t marker + count t (fill color).
Proof.
  intros Hin Hc.
  apply separated_elem, separated_spec in Hin as (Hap & Hlen & [?|Hne]);
    [done|].
  apply (apart_spec "f" "ill:#cc4c4c;" "f" ("ill:#" +:+ color +:+ ";"))
    in Hap as (_ & Hmp & Hpm & Hpp).
  apply (count_replace "f" "ill:#cc4c4c;" "f" ("ill:#" +:+ color +:+ ";"));
    [exact (λ E, Hne (eq_sym E))|done..].
Qed.

Lemma fills_accounted_witness :
  count (output_text "<g fill:#cc4c4c; fill:#cca6d6; fill:#cc4c4c;>" "cca6d6")
    (fill "cca6d6") =
  count "<g fill:#cc4c4c; fill:#cca6d6; fill:#cc4c4c;>" marker +
  count "<g fill:#cc4c4c; fill:#cca6d6; fill:#cc4c4c;>" (fill "cca6d6").
Proof.
  apply (fills_accounted "bool" "cca6d6").
  - apply (bool_decide_unpack _). vm_compute. exact I.
  - apply (bool_decide_unpack _). vm_compute. exact I.
Defined.

Example fills_accounted_numbers :
  count "<g fill:#cc4c4c; fill:#cca6d6; fill:#cc4c4c;>" marker = 2 ∧
  count (output_text "<g fill:#cc4c4c; fill:#cca6d6; fill:#cc4c4c;>" "cca6d6")
    (fill "cca6d6") = 3.
Proof. by vm_compute. Qed.

(** * The screenshot script *)

Section screenshots.
Import Screenshots.
Implicit Types (h : host) (b : blender) (file_path nodetype : string).

Lemma delete_new {A} (l : list A) (x : A) :
  delete (length l) (l ++ [x])%list = l.
Proof. induction l as [|y l IH]; simpl; [done|]. by rewrite IH. Qed.

(** The picture of the area with the new node in the tree. *)
Local Abbreviation shot b nodetype :=
  (AreaShot (nodes b ++ [nodetype])%list).

Local Abbreviation printed b nodetype :=
  (stdout b ++ ["Creating screenshot of " +:+ nodetype])%list.

Ltac start_take_screenshot h nodetype :=
  unfold take_screenshot, node_height, crop_box, jpg_path, MARGIN;
  cbn [nodes set_nodes print set_images set_WARNINGS images];
  destruct (node_corners h nodetype) as [[x0 y0] [x1 y1]]; cbn [fst snd];
  replace (area_height h - y1 + 20 - (area_height h - y0 - 20))%Z
    with (y0 - y1 + 2 * 20)%Z by lia.

(** The three ways [take_screenshot] ends. *)
Lemma take_screenshot_too_big h file_path nodetype b :
  (area_height h < node_height h nodetype + 2 * MARGIN)%Z →
  take_screenshot h file_path nodetype b =
    (None,
     {| nodes := nodes b;
        WARNINGS := (WARNINGS b ++ [nodetype])%list;
        images := <[file_path := shot b nodetype]> (images b);
        stdout := printed b nodetype |}).
Proof.
  intros Hbig. revert Hbig. start_take_screenshot h nodetype. intros Hbig.
  rewrite (proj2 (Z.gtb_lt _ _)) by done.
  unfold set_nodes, set_WARNINGS; cbn. by rewrite delete_new.
Qed.

Lemma take_screenshot_fitting h file_path nodetype b :
  (node_height h nodetype + 2 * MARGIN ≤ area_height h)%Z →
  pillow_raises h = None →
  take_screenshot h file_path nodetype b =
    (None,
     {| nodes := nodes b;
        WARNINGS := WARNINGS b;
        images :=
          delete file_path
            (<[jpg_path h file_path :=
                 Scaled (400, 1000)%Z
                   (Cropped (crop_box h nodetype) (shot b nodetype))]>
               (<[file_path := shot b nodetype]> (images b)));
        stdout := printed b nodetype |}).
Proof.
  intros Hfit Hp. revert Hfit. start_take_screenshot h nodetype. intros Hfit.
  assert ((y0 - y1 + 2 * 20 >? area_height h)%Z = false) as ->
    by (rewrite Z.gtb_ltb; apply Z.ltb_ge; lia).
  unfold raises. rewrite Hp. rewrite !bool_decide_eq_false_2 by done.
  rewrite lookup_insert_eq. unfold os_remove, set_images, set_nodes, print.
  cbn [images nodes WARNINGS stdout]. rewrite delete_new.
  destruct (decide ((os_path_splitext h file_path).1 +:+ ".jpg"
                    = file_path)) as [E|Hne].
  - rewrite E. by rewrite lookup_insert_eq.
  - by rewrite lookup_insert_ne, lookup_insert_eq.
Qed.

Lemma take_screenshot_pillow h file_path nodetype b call :
  (node_height h nodetype + 2 * MARGIN ≤ area_height h)%Z →
  pillow_raises h = Some call →
  take_screenshot h file_path nodetype b =
    (Some (PillowError call),
     {| nodes := nodes b;
        WARNINGS := WARNINGS b;
        images :=
          if decide (call = ImageSave)
          then partial_alter (failed_save h) (jpg_path h file_path)
                 (<[file_path := shot b nodetype]> (images b))
          else <[file_path := shot b nodetype]> (images b);
        stdout := printed b nodetype |}).
Proof.
  intros Hfit Hp. revert Hfit. start_take_screenshot h nodetype. intros Hfit.
  assert ((y0 - y1 + 2 * 20 >? area_height h)%Z = false) as ->
    by (rewrite Z.gtb_ltb; apply Z.ltb_ge; lia).
  unfold raises. rewrite Hp. rewrite lookup_insert_eq.
  unfold set_images, set_nodes, print. cbn [images nodes WARNINGS stdout].
  rewrite delete_new.
  destruct call;
    rewrite ?bool_decide_eq_true_2, ?bool_decide_eq_false_2 by congruence;
    try rewrite bool_decide_eq_true_2 by done; done.
Qed.

(** X10. Whether the node is reported as too big, the picture is saved,
    or a call into Pillow raises: [take_screenshot] leaves the node tree
    as it found it, the node it makes being removed before the picture
    is opened. *)
Theorem take_screenshot_restores_tree h file_path nodetype b :
  nodes (take_screenshot h file_path nodetype b).2 = nodes b.
Proof.
  destruct (Z.lt_ge_cases (area_height h) (node_height h nodetype + 2 * MARGIN))
    as [Hbig|Hfit].
  - by rewrite take_screenshot_too_big.
  - destruct (pillow_raises h) as [call|] eqn:Hp.
    + by rewrite (take_screenshot_pillow h file_path nodetype b call).
    + by rewrite take_screenshot_fitting.
Qed.

(** X11. A node whose height in pixels and twice the margin exceed the
    height of the area, whatever its width and place: its type is added
    at the end of [WARNINGS], the screenshot of the whole area stays at
    [file_path], and no other file is written or removed. *)
Theorem too_big_node h file_path nodetype b :
  (area_height h < node_height h nodetype + 2 * MARGIN)%Z →
  ∃ b', take_screenshot h file_path nodetype b = (None, b') ∧
        WARNINGS b' = (WARNINGS b ++ [nodetype])%list ∧
        images b' =
          <[file_path := AreaShot (nodes b ++ [nodetype])%list]> (images b).
Proof. intros Hbig. rewrite take_screenshot_too_big by done. eauto. Qed.

Lemma too_big_node_witness :
  ∃ b', take_screenshot sample_host "out/LNTallNode.png" "LNTallNode"
          sample_blender = (None, b') ∧
        WARNINGS b' = (WARNINGS sample_blender ++ ["LNTallNode"])%list ∧
        images b' =
          <["out/LNTallNode.png" :=
              AreaShot (nodes sample_blender ++ ["LNTallNode"])%list]>
            (images sample_blender).
Proof.
  apply (too_big_node sample_host "out/LNTallNode.png" "LNTallNode").
  vm_compute. reflexivity.
Defined.

(** X12. A node that fits, with a Pillow none of whose calls raises, and a
    [file_path] other than the path the picture is saved at: the call
    returns; [WARNINGS] is as before; the screenshot at [file_path] is
    removed, also when a file was there before the call; the picture
    saved beside it is the screenshot cropped to the node with the margin
    on every side, so the box is as wide and as high as the node and
    twice the margin, and no higher than the area; no other file
    changes. *)
Theorem fitting_node h file_path nodetype b :
  (node_height h nodetype + 2 * MARGIN ≤ area_height h)%Z →
  pillow_raises h = None →
  jpg_path h file_path ≠ file_path →
  ∃ b', take_screenshot h file_path nodetype b = (None, b') ∧
        WARNINGS b' = WARNINGS b ∧
        images b' !! file_path = None ∧
        images b' !! jpg_path h file_path =
          Some (Scaled (400, 1000)%Z
                  (Cropped (crop_box h nodetype)
                     (AreaShot (nodes b ++ [nodetype])%list))) ∧
        (∀ p, p ≠ file_path → p ≠ jpg_path h file_path →
              images b' !! p = images b !! p) ∧
        ((crop_box h nodetype).1.2 - (crop_box h nodetype).1.1.1 =
           node_width h nodetype + 2 * MARGIN)%Z ∧
        ((crop_box h nodetype).2 - (crop_box h nodetype).1.1.2 =
           node_height h nodetype + 2 * MARGIN)%Z ∧
        ((crop_box h nodetype).2 - (crop_box h nodetype).1.1.2 ≤
           area_height h)%Z.
Proof.
  intros Hfit Hp Hjpg. rewrite take_screenshot_fitting by done.
  eexists. split; [done|]. cbn [WARNINGS images]. split_and!.
  - done.
  - apply lookup_delete_eq.
  - by rewrite lookup_delete_ne, lookup_insert_eq.
  - intros p Hp' Hq. by rewrite lookup_delete_ne, !lookup_insert_ne.
  - unfold crop_box, node_width. cbn. lia.
  - unfold crop_box, node_height. cbn. lia.
  - unfold crop_box, node_height in *. cbn. lia.
Qed.

Lemma fitting_node_witness :
  ∃ b', take_screenshot sample_host "out/LNAddNode.png" "LNAddNode"
          sample_blender = (None, b') ∧
        WARNINGS b' = WARNINGS sample_blender ∧
        images b' !! "out/LNAddNode.png" = None ∧
        images b' !! jpg_path sample_host "out/LNAddNode.png" =
          Some (Scaled (400, 1000)%Z
                  (Cropped (crop_box sample_host "LNAddNode")
                     (AreaShot (nodes sample_blender ++ ["LNAddNode"])%list))) ∧
        (∀ p, p ≠ "out/LNAddNode.png" →
              p ≠ jpg_path sample_host "out/LNAddNode.png" →
              images b' !! p = images sample_blender !! p) ∧
        ((crop_box sample_host "LNAddNode").1.2 -
         (crop_box sample_host "LNAddNode").1.1.1 =
           node_width sample_host "LNAddNode" + 2 * MARGIN)%Z ∧
        ((crop_box sample_host "LNAddNode").2 -
         (crop_box sample_host "LNAddNode").1.1.2 =
           node_height sample_host "LNAddNode" + 2 * MARGIN)%Z ∧
        ((crop_box sample_host "LNAddNode").2 -
         (crop_box sample_host "LNAddNode").1.1.2 ≤
           area_height sample_host)%Z.
Proof.
  apply (fitting_node sample_host "out/LNAddNode.png" "LNAddNode").
  - apply (bool_decide_unpack _). vm_compute. exact I.
  - reflexivity.
  - apply (bool_decide_unpack _). vm_compute. exact I.
Defined.

Example fitting_node_numbers :
  jpg_path sample_host "out/LNAddNode.png" = "out/LNAddNode.jpg" ∧
  crop_box sample_host "LNAddNode" = (280, 280, 460, 520)%Z.
Proof. by vm_compute. Qed.

(** X14. A node that fits, and a call into Pillow that raises, as the
    [thumbnail] line does from Pillow 10 on: the exception leaves
    [take_screenshot] with the node removed from the tree and [WARNINGS]
    as before; unless it is [save] that raises, the screenshot of the
    whole area stays at [file_path] and no other file is written, so no
    picture of the node is saved. *)
Theorem pillow_failure h file_path nodetype b call :
  (node_height h nodetype + 2 * MARGIN ≤ area_height h)%Z →
  pillow_raises h = Some call →
  ∃ b', take_screenshot h file_path nodetype b =
          (Some (PillowError call), b') ∧
        nodes b' = nodes b ∧
        WARNINGS b' = WARNINGS b ∧
        (call ≠ ImageSave →
         images b' =
           <[file_path := AreaShot (nodes b ++ [nodetype])%list]> (images b)).
Proof.
  intros Hfit Hp.
  rewrite (take_screenshot_pillow h file_path nodetype b call) by done.
  eexists. split; [done|]. cbn [nodes WARNINGS images]. split_and!; try done.
  intros Hne. by rewrite decide_False.
Qed.

Lemma pillow_failure_witness :
  ∃ b', take_screenshot pillow10_host "out/LNAddNode.png" "LNAddNode"
          sample_blender = (Some (PillowError ImageThumbnail), b') ∧
        nodes b' = nodes sample_blender ∧
        WARNINGS b' = WARNINGS sample_blender ∧
        (ImageThumbnail ≠ ImageSave →
         images b' =
           <["out/LNAddNode.png" :=
               AreaShot (nodes sample_blender ++ ["LNAddNode"])%list]>
             (images sample_blender)).
Proof.
  apply (pillow_failure pillow10_host "out/LNAddNode.png" "LNAddNode").
  - apply (bool_decide_unpack _). vm_compute. exact I.
  - reflexivity.
Defined.

End screenshots.

(** * The run over the bytes *)

Section data_loop.
Context (data : string → string).
Implicit Types (w : world) (m : gmap string string)
  (l : list (string * string)).

Lemma write_data_other l m p :
  p ∉ map (output_path ∘ fst) l → write_data data l m !! p = m !! p.
Proof.
  revert m; induction l as [|[name color] l IH]; intros m Hp; [done|].
  simpl in *. apply not_elem_of_cons in Hp as [Hne Hp].
  rewrite IH by done. by rewrite lookup_insert_ne.
Qed.

Lemma write_data_lookup l m name color :
  NoDup (map (output_path ∘ fst) l) →
  (name, color) ∈ l →
  write_data data l m !! output_path name = Some (data color).
Proof.
  revert m; induction l as [|[name' color'] l IH]; intros m Hnd Hin.
  - by apply elem_of_nil in Hin.
  - simpl in *. apply NoDup_cons in Hnd as [Hfresh Hnd].
    apply elem_of_cons in Hin as [Hin|Hin].
    + simplify_eq. rewrite write_data_other by done. apply lookup_insert_eq.
    + by apply IH.
Qed.

Lemma write_data_dom l m :
  dom (write_data data l m) = dom m ∪ list_to_set (map (output_path ∘ fst) l).
Proof.
  revert m; induction l as [|[name color] l IH]; intros m; simpl.
  - by rewrite (right_id_L ∅ (∪)).
  - rewrite IH, dom_insert_L.
    by rewrite (comm_L (∪) {[output_path name]}), <- (assoc_L (∪)).
Qed.

Lemma emit_data_run name color w :
  emit_data data (name, color) w =
    match faulty w !! output_path name with
    | None => (Ok tt, set_files (insert (output_path name) (data color)) w)
    | Some fault =>
        (Raise (fault_error fault (output_path name)),
         set_files (fault_files fault (output_path name) (data color)) w)
    end.
Proof.
  unfold emit_data. rewrite write_whole.
  destruct (faulty w !! output_path name) as [[|k]|]; try done.
  by destruct w.
Qed.

Lemma for_data_ok l w :
  Forall (λ e, writable w (output_path e.1)) l →
  for_ l (emit_data data) w = (Ok tt, set_files (write_data data l) w).
Proof.
  revert w; induction l as [|[name color] l IH]; intros w Hl.
  - by destruct w.
  - apply Forall_cons in Hl as [Hhd Hl]. unfold writable in Hhd.
    simpl in Hhd. rewrite for_cons, emit_data_run, Hhd. by rewrite IH.
Qed.

Lemma for_data_raise pre name color post fault w :
  Forall (λ e, writable w (output_path e.1)) pre →
  faulty w !! output_path name = Some fault →
  (for_ (pre ++ (name, color) :: post) (emit_data data) w).1 =
    Raise (fault_error fault (output_path name)).
Proof.
  revert w; induction pre as [|[name' color'] pre IH]; intros w Hpre Hf.
  - rewrite app_nil_l, for_cons, emit_data_run, Hf. done.
  - apply Forall_cons in Hpre as [Hhd Hpre]. unfold writable in Hhd.
    simpl in Hhd. rewrite <- app_comm_cons, for_cons, emit_data_run, Hhd.
    by rewrite IH.
Qed.

End data_loop.

Section text_layer.
Import Str StrFacts TextIO.
Implicit Types (pf : platform) (d w : world).

Lemma with_T_lift {A} (opener : M file) (body : file → M A) w :
  with_T (lift opener) (λ f, lift (body f)) w = lift (with_ opener body) w.
Proof.
  unfold with_T, with_, lift, close_text, close, ret.
  destruct (opener w) as [[f|e] w1]; [|done].
  by destruct (body f w1) as [[a|e] w2].
Qed.

Lemma write_text_entry pf t name color w :
  with_T (open_text_w ("sockettype_" +:+ name +:+ ".svg")) (fun f =>
    write_text pf f (Str.replace t "fill:#cc4c4c;"
                       ("fill:#" +:+ color +:+ ";"))) w =
  lift (emit_data (λ color,
          translate_newlines (linesep pf) (output_text t color))
          (name, color)) w.
Proof. unfold open_text_w, write_text. by rewrite with_T_lift. Qed.

Lemma for_T_emit pf t l w :
  for_T l (fun '(socket_type, color) =>
    with_T (open_text_w ("sockettype_" +:+ socket_type +:+ ".svg")) (fun f =>
      write_text pf f (Str.replace t "fill:#cc4c4c;"
                         ("fill:#" +:+ color +:+ ";")))) w =
  lift (for_ l (emit_data (λ color,
          translate_newlines (linesep pf) (output_text t color)))) w.
Proof.
  revert w; induction l as [|[name color] l IH]; intros w; [done|].
  cbn [for_T]. unfold bind_T. rewrite write_text_entry.
  unfold lift at 1 2. rewrite for_cons.
  destruct (emit_data _ (name, color) w) as [[[]|e] w1]; [|done].
  apply IH.
Qed.

(** The run over the bytes, step by step. *)
Lemma bytes_run pf d :
  TextIO.main pf d =
    match files d !! template_path with
    | None => (Raises (OS (FileNotFoundError template_path)), d)
    | Some tb =>
        if decide (template_path ∈ unreadable d)
        then (Raises (OS (PermissionError template_path)), d)
        else if decodes pf tb
        then lift (for_ COLORS (emit_data (output_bytes pf tb))) d
        else (Raises (UnicodeDecodeError template_path), d)
    end.
Proof.
  unfold TextIO.main. unfold bind_T at 1.
  change "sockettype_template.svg" with template_path.
  unfold with_T at 1, open_text_r, lift at 1, open_r.
  destruct (files d !! template_path) as [tb|] eqn:Htb; [|done].
  case_decide; [done|].
  unfold read_text, bind_T, lift at 1, read. rewrite Htb.
  destruct (decodes pf tb); [|done]. unfold unit_T, close_text, close, ret.
  unfold lift at 1. cbv beta iota.
  exact (for_T_emit pf (universal_newlines tb) COLORS d).
Qed.

Lemma bytes_ok pf d tb :
  files d !! template_path = Some tb →
  template_path ∉ unreadable d →
  decodes pf tb = true →
  Forall (writable d) output_paths →
  TextIO.main pf d =
    (Returns tt, set_files (write_data (output_bytes pf tb) COLORS) d).
Proof.
  intros Htb Hr Hdec Hw. rewrite bytes_run, Htb, decide_False, Hdec by done.
  unfold lift. rewrite for_data_ok; [done|]. by apply writable_paths.
Qed.

Lemma bytes_ok_inv pf d :
  ends pf d = Returns tt →
  ∃ tb, files d !! template_path = Some tb ∧
        (template_path ∉ unreadable d) ∧
        decodes pf tb = true ∧
        Forall (writable d) output_paths ∧
        leaves pf d = set_files (write_data (output_bytes pf tb) COLORS) d.
Proof.
  unfold ends, leaves. rewrite bytes_run.
  destruct (files d !! template_path) as [tb|] eqn:Htb; [|done].
  case_decide; [done|]. destruct (decodes pf tb) eqn:Hdec; [|done].
  destruct (first_fault COLORS d)
    as [Hw|(pre & n & c & post & fault & Hl & Hpre & Hf)].
  - intros _. exists tb. unfold lift. rewrite for_data_ok by done.
    split_and!; try done. by apply writable_paths.
  - unfold lift.
    pose proof (for_data_raise (output_bytes pf tb) pre n c post fault d
                  Hpre Hf) as Hraise.
    rewrite <- Hl in Hraise.
    destruct (for_ COLORS (emit_data (output_bytes pf tb)) d) as [[[]|e] d'];
      simpl in *; done.
Qed.

(** Bytes without a carriage return are read as they are, and a platform
    whose separator is the line feed writes the text as it is. *)
Lemma universal_newlines_id s :
  contains s (String CR "") = false → universal_newlines s = s.
Proof.
  induction s as [|a s IH]; [done|]. rewrite contains_cons.
  intros [Hhd Htl]%orb_false_iff. simpl.
  destruct (Ascii.eqb_spec a CR) as [->|_].
  - by destruct s.
  - by rewrite IH.
Qed.

Lemma translate_newlines_LF s : translate_newlines (String LF "") s = s.
Proof.
  induction s as [|a s IH]; [done|]. simpl.
  destruct (Ascii.eqb_spec a LF) as [->|_]; by rewrite IH.
Qed.

Lemma output_bytes_plain pf tb color :
  linesep pf = String LF "" →
  contains tb (String CR "") = false →
  output_bytes pf tb color = replace tb marker (fill color).
Proof.
  intros Hsep Hcr. unfold output_bytes.
  by rewrite Hsep, translate_newlines_LF, universal_newlines_id.
Qed.

Lemma recoloured_length color s t :
  String.length (fill color) = String.length marker →
  recoloured color s t → String.length s = String.length t.
Proof.
  intros Hlen. induction 1 as [|a s t _ IH|s t _ IH].
  - done.
  - simpl. by rewrite IH.
  - rewrite !length_app. lia.
Qed.

End text_layer.

Section byte_claims.
Import Str StrFacts TextIO.
Implicit Types (pf : platform) (d : world).

Lemma leaves_output pf d tb name color :
  leaves pf d = set_files (write_data (output_bytes pf tb) COLORS) d →
  (name, color) ∈ COLORS →
  files (leaves pf d) !! output_path name = Some (output_bytes pf tb color).
Proof.
  intros -> Hin. rewrite files_set_files.
  apply (write_data_lookup (output_bytes pf tb)); [|done].
  apply output_paths_unique.
Qed.

(** The text layer: where the template decodes, the run over the bytes
    ends as [main] does over the text that is read, and the bytes it
    writes are the text [main] writes with the line feeds translated. *)
Lemma text_view pf d tb :
  files d !! template_path = Some tb →
  decodes pf tb = true →
  ends pf d =
    match outcome (set_files (insert template_path (universal_newlines tb)) d)
    with
    | Ok a => Returns a
    | Raise e => Raises (OS e)
    end ∧
  (ends pf d = Returns tt →
   ∀ name color, (name, color) ∈ COLORS →
     files (leaves pf d) !! output_path name =
       translate_newlines (linesep pf) <$>
       files (after (set_files (insert template_path (universal_newlines tb))
                       d)) !! output_path name).
Proof.
  intros Htb Hdec.
  set (w := set_files (insert template_path (universal_newlines tb)) d).
  assert (files w !! template_path = Some (universal_newlines tb)) as Hw
    by apply lookup_insert_eq.
  split.
  - unfold ends, outcome. rewrite bytes_run, main_run, Htb, Hw, Hdec.
    change (unreadable w) with (unreadable d). case_decide; [done|].
    destruct (first_fault COLORS d)
      as [Hok|(pre & n & c & post & fault & Hl & Hpre & Hf)].
    + unfold lift. rewrite for_data_ok by done.
      by rewrite (for_emit_ok _ COLORS w).
    + pose proof (for_data_raise (output_bytes pf tb) pre n c post fault d
                    Hpre Hf) as Hb.
      rewrite <- Hl in Hb. unfold lift.
      destruct (for_ COLORS (emit_data (output_bytes pf tb)) d) as [r d'].
      simpl in Hb. subst r. rewrite Hl.
      by rewrite (for_emit_raise _ pre n c post fault w).
  - intros (tb' & Htb' & Hr & _ & Hwr & Hleaves)%bytes_ok_inv name color Hin.
    assert (tb' = tb) as -> by congruence.
    rewrite (leaves_output pf d tb name color) by done.
    assert (after w = set_files (write_all (universal_newlines tb) COLORS) w)
      as Hafter.
    { unfold after. by rewrite (main_ok w (universal_newlines tb)). }
    by rewrite (after_output w (universal_newlines tb) name color).
Qed.

(** C2, as the specification states it, fails below the text: a template
    with Windows line endings, read and written on a POSIX system, gives
    outputs that are one byte shorter than the template, so they are not
    the template's bytes with another colour. *)
Lemma byte_identity_counterexample :
  ends posix crlf_disk = Returns tt ∧
  ("bool", "cca6d6") ∈ COLORS ∧
  files crlf_disk !! template_path = Some crlf_template ∧
  files (leaves posix crlf_disk) !! output_path "bool" =
    Some ("<svg>" +:+ String LF "<rect fill:#cca6d6; /></svg>") ∧
  String.length crlf_template = 35 ∧
  String.length ("<svg>" +:+ String LF "<rect fill:#cca6d6; /></svg>") = 34 ∧
  ¬ recoloured "cca6d6" crlf_template
      ("<svg>" +:+ String LF "<rect fill:#cca6d6; /></svg>").
Proof.
  split_and!; try by vm_compute.
  - apply (bool_decide_unpack _). vm_compute. exact I.
  - intros H%recoloured_length; [|done]. vm_compute in H. discriminate.
Qed.

(** C2, amended.  A run that ends well produces as many output files as
    the table has entries, eleven, and touches no other path.  Each output
    holds the template text, as text-mode reading gives it, with the
    entry's fill declaration put for every marker: that text is the text
    read except for the colour, character for character, and the file
    holds it with every line feed written as the platform's line
    separator.  Where that separator is the line feed and the template
    holds no carriage return, the output is the template's bytes except
    for the substituted colour. *)
Theorem one_output_per_entry pf d :
  ends pf d = Returns tt →
  length COLORS = 11 ∧
  size (list_to_set output_paths : gset string) = length COLORS ∧
  dom (files (leaves pf d)) = dom (files d) ∪ list_to_set output_paths ∧
  (∀ p, p ∉ output_paths → files (leaves pf d) !! p = files d !! p) ∧
  ∃ tb, files d !! template_path = Some tb ∧
    ∀ name color, (name, color) ∈ COLORS →
      files (leaves pf d) !! output_path name =
        Some (translate_newlines (linesep pf)
                (replace (universal_newlines tb) marker (fill color))) ∧
      recoloured color (universal_newlines tb)
        (replace (universal_newlines tb) marker (fill color)) ∧
      String.length (replace (universal_newlines tb) marker (fill color)) =
        String.length (universal_newlines tb) ∧
      (linesep pf = String LF "" →
       contains tb (String CR "") = false →
       files (leaves pf d) !! output_path name =
         Some (replace tb marker (fill color)) ∧
       recoloured color tb (replace tb marker (fill color)) ∧
       String.length (replace tb marker (fill color)) = String.length tb).
Proof.
  intros (tb & Htb & _ & _ & _ & Hleaves)%bytes_ok_inv. split_and!.
  - reflexivity.
  - rewrite size_list_to_set by apply output_paths_unique.
    unfold output_paths. by rewrite length_map.
  - rewrite Hleaves, files_set_files. apply write_data_dom.
  - intros p Hp. rewrite Hleaves, files_set_files.
    by apply write_data_other.
  - exists tb. split; [done|]. intros name color Hin.
    pose proof (separated_elem name color Hin) as Hsep. split_and!.
    + by apply (leaves_output pf d tb).
    + apply output_text_recoloured.
    + by apply output_text_length.
    + intros Hlf Hcr. split_and!.
      * rewrite (leaves_output pf d tb name color) by done.
        by rewrite output_bytes_plain.
      * apply output_text_recoloured.
      * by apply output_text_length.
Qed.

Lemma one_output_per_entry_witness :
  length COLORS = 11 ∧
  size (list_to_set output_paths : gset string) = length COLORS ∧
  dom (files (leaves posix crlf_disk)) =
    dom (files crlf_disk) ∪ list_to_set output_paths ∧
  (∀ p, p ∉ output_paths →
        files (leaves posix crlf_disk) !! p = files crlf_disk !! p) ∧
  ∃ tb, files crlf_disk !! template_path = Some tb ∧
    ∀ name color, (name, color) ∈ COLORS →
      files (leaves posix crlf_disk) !! output_path name =
        Some (translate_newlines (linesep posix)
                (replace (universal_newlines tb) marker (fill color))) ∧
      recoloured color (universal_newlines tb)
        (replace (universal_newlines tb) marker (fill color)) ∧
      String.length (replace (universal_newlines tb) marker (fill color)) =
        String.length (universal_newlines tb) ∧
      (linesep posix = String LF "" →
       contains tb (String CR "") = false →
       files (leaves posix crlf_disk) !! output_path name =
         Some (replace tb marker (fill color)) ∧
       recoloured color tb (replace tb marker (fill color)) ∧
       String.length (replace tb marker (fill color)) = String.length tb).
Proof.
  apply (one_output_per_entry posix crlf_disk). vm_compute. reflexivity.
Defined.

(** C10, as the specification states it, fails below the text: for a
    template with Windows line endings the file written for "action" on a
    POSIX system is not the template, byte for byte. *)
Lemma action_bytes_counterexample :
  ends posix crlf_disk = Returns tt ∧
  files crlf_disk !! template_path = Some crlf_template ∧
  files (leaves posix crlf_disk) !! output_path "action" =
    Some ("<svg>" +:+ String LF "<rect fill:#cc4c4c; /></svg>") ∧
  files (leaves posix crlf_disk) !! output_path "action" ≠
    files crlf_disk !! template_path.
Proof. split_and!; by vm_compute. Qed.

(** C10, amended.  The entry "action" carries the reference colour, so
    its fill declaration is the marker and the substitution is the
    identity on every text: the file written for "action" holds the
    template text as text-mode reading gives it, every line feed written
    as the platform's line separator.  It is the template byte for byte
    where that separator is the line feed and the template holds no
    carriage return. *)
Theorem action_copies_text pf d :
  ends pf d = Returns tt →
  ("action", "cc4c4c") ∈ COLORS ∧
  fill "cc4c4c" = marker ∧
  (∀ t, replace t marker (fill "cc4c4c") = t) ∧
  ∃ tb, files d !! template_path = Some tb ∧
        files (leaves pf d) !! output_path "action" =
          Some (translate_newlines (linesep pf) (universal_newlines tb)) ∧
        (linesep pf = String LF "" →
         contains tb (String CR "") = false →
         files (leaves pf d) !! output_path "action" = Some tb).
Proof.
  intros (tb & Htb & _ & _ & _ & Hleaves)%bytes_ok_inv.
  assert (("action", "cc4c4c") ∈ COLORS) as Hin by (by left).
  split_and!; [done|done| |].
  - apply output_text_reference.
  - exists tb. split; [done|].
    rewrite (leaves_output pf d tb "action" "cc4c4c") by done.
    unfold output_bytes.
    change (replace (universal_newlines tb) marker (fill "cc4c4c"))
      with (output_text (universal_newlines tb) "cc4c4c").
    rewrite output_text_reference. split; [done|].
    intros Hlf Hcr. by rewrite Hlf, translate_newlines_LF, universal_newlines_id.
Qed.

Lemma action_copies_text_witness :
  ("action", "cc4c4c") ∈ COLORS ∧
  fill "cc4c4c" = marker ∧
  (∀ t, replace t marker (fill "cc4c4c") = t) ∧
  ∃ tb, files sample_world !! template_path = Some tb ∧
        files (leaves posix sample_world) !! output_path "action" =
          Some (translate_newlines (linesep posix) (universal_newlines tb)) ∧
        (linesep posix = String LF "" →
         contains tb (String CR "") = false →
         files (leaves posix sample_world) !! output_path "action" = Some tb).
Proof.
  apply (action_copies_text posix sample_world). vm_compute. reflexivity.
Defined.

(** X1.  Of the failures the model knows (a template that is missing, may
    not be read or does not decode; an output that cannot be opened or
    written in full), none depends on the marker: the run over the bytes
    ends well exactly when the template exists, may be read and decodes,
    and no output path is faulty. *)
Theorem run_returns_iff pf d :
  ends pf d = Returns tt ↔
  ∃ tb, files d !! template_path = Some tb ∧
        (template_path ∉ unreadable d) ∧
        decodes pf tb = true ∧
        Forall (writable d) output_paths.
Proof.
  split.
  - intros (tb & Htb & Hr & Hdec & Hw & _)%bytes_ok_inv. by exists tb.
  - intros (tb & Htb & Hr & Hdec & Hw). unfold ends.
    by rewrite (bytes_ok pf d tb).
Qed.

(** A template that is no UTF-8 raises [UnicodeDecodeError] on the POSIX
    system, before any output is written. *)
Example latin_disk_run :
  ends posix latin_disk = Raises (UnicodeDecodeError template_path) ∧
  leaves posix latin_disk = latin_disk.
Proof. by vm_compute. Qed.

End byte_claims.
